(** * ASCII art generator (main.py): shallow embedding and verified properties

    The program loads an image with Pillow, resizes it to a target character
    width, converts it to grayscale, maps every luminance value to a character
    of a density-ordered palette and prints the rows.

    - Python [float] is IEEE-754 binary64; it is modelled with the Standard
      Library's [SpecFloat] (round to nearest, ties to even), so [int / int],
      [int * float] and [int(float)] are computed bit for bit.
    - Python exceptions are values of [exn]; a function that can raise returns
      [exn + A].
    - Pillow is not part of the program: the three calls the program makes
      ([Image.open], [Image.resize], [Image.convert]) are the operations of
      the class [PIL], their contract is [PIL_laws], and [RefPIL] is a small
      executable instance used to run the program on concrete images.
    - Strings are [string]; text outside ASCII (the two messages) is held in
      UTF-8. *)

From Stdlib Require Import ZArith List String Ascii Bool Lia.
From Stdlib Require Import Floats.SpecFloat.
Import ListNotations.

Local Open Scope string_scope.
Local Open Scope Z_scope.

(** ** Python exceptions *)

Inductive exn_class :=
| FileNotFoundError
| UnidentifiedImageError
| OSError
| ValueError
| TypeError
| IndexError
| ZeroDivisionError
| OverflowError
| KeyboardInterrupt.

Record exn := Raise { exn_cls : exn_class; exn_msg : string }.

(** [except FileNotFoundError]: the class itself (it has no subclass here). *)
Definition is_FileNotFoundError (e : exn) : bool :=
  match exn_cls e with FileNotFoundError => true | _ => false end.

(** [except Exception]: every class above but [KeyboardInterrupt], which
    derives from [BaseException] only. *)
Definition is_Exception (e : exn) : bool :=
  match exn_cls e with KeyboardInterrupt => false | _ => true end.

(** ** Python floats *)

Module PyFloat.

Definition prec : Z := 53.
Definition emax : Z := 1024.

Definition float := spec_float.

(** The double nearest to an integer, before any overflow check. *)
Definition of_Z (n : Z) : float := binary_normalize prec emax n 0 false.

(** Implicit conversion of an [int] operand of a float operation. *)
Definition of_int (n : Z) : exn + float :=
  match of_Z n with
  | S754_infinity _ => inl (Raise OverflowError "int too large to convert to float")
  | x => inr x
  end.

Definition is_zero (x : float) : bool :=
  match x with S754_zero _ => true | _ => false end.

Definition mul (x y : float) : float := SFmul prec emax x y.

(** [x / y] on floats. *)
Definition truediv (x y : float) : exn + float :=
  if is_zero y then inl (Raise ZeroDivisionError "float division by zero")
  else inr (SFdiv prec emax x y).

(** An integer as a float datum whose mantissa is not yet rounded. *)
Definition exact (n : Z) : float :=
  match n with
  | Z0 => S754_zero false
  | Zpos p => S754_finite false p 0
  | Zneg p => S754_finite true p 0
  end.

(** [a / b] on ints: the correctly rounded quotient. *)
Definition int_truediv (a b : Z) : exn + float :=
  if b =? 0 then inl (Raise ZeroDivisionError "division by zero")
  else match SFdiv prec emax (exact a) (exact b) with
       | S754_infinity _ =>
           inl (Raise OverflowError "integer division result too large for a float")
       | x => inr x
       end.

(** [int(x)]: truncation toward zero. *)
Definition to_int (x : float) : exn + Z :=
  match x with
  | S754_zero _ => inr 0
  | S754_finite s m e =>
      let a := match e with
               | Zneg p => Z.shiftr (Zpos m) (Zpos p)
               | _ => Z.shiftl (Zpos m) e
               end in
      inr (if s then - a else a)
  | S754_infinity _ =>
      inl (Raise OverflowError "cannot convert float infinity to integer")
  | S754_nan =>
      inl (Raise ValueError "cannot convert float NaN to integer")
  end.

(** The literal [0.55]. *)
Definition lit_0_55 : float := S754_finite false 4953959590107546 (-53).

End PyFloat.

(** ** The palette *)

(** ASCII_CHARS_PADRAO, densest first.  The text holds a backslash and a
    double quote, written here by their codes 92 and 34. *)
Definition ASCII_CHARS_PADRAO : string :=
  "$@B%8&WM#*oahkbdpqwmZO0QLCJUYXzcvunxrjft/"
  ++ String (ascii_of_nat 92) "|()1{}[]?-_+~<>i!lI;:,"
  ++ String (ascii_of_nat 34) "^`'. ".

(** [s[::-1]] *)
Fixpoint reverse (s : string) : string :=
  match s with
  | EmptyString => EmptyString
  | String c r => reverse r ++ String c EmptyString
  end.

(** [len(s)] *)
Definition len (s : string) : Z := Z.of_nat (String.length s).

(** [s[i]] for an int [i]: negative indices count from the end. *)
Definition py_index (s : string) (i : Z) : exn + ascii :=
  let n := len s in
  let j := if i <? 0 then i + n else i in
  if (j <? 0) || (n <=? j) then inl (Raise IndexError "string index out of range")
  else match String.get (Z.to_nat j) s with
       | Some c => inr c
       | None => inl (Raise IndexError "string index out of range")
       end.

(** ** Fallible computations and the effects of the program *)

(** Pure code that can raise: [exn + A]. *)
Definition and_then {A B : Type} (r : exn + A) (k : A -> exn + B) : exn + B :=
  match r with
  | inl e => inl e
  | inr a => k a
  end.

Notation "'let?' x ':=' r 'in' k" := (and_then r (fun x => k))
  (at level 10, x name, r at level 100, k at level 200).

(** ** Images and the Pillow calls *)

(** A pixel as [getdata()] yields it: an int for a single-band integer
    image, a float for a single-band float image (mode F), a tuple of ints
    for a multi-band one. *)
Inductive pixel :=
| PInt (v : Z)
| PFloat (x : PyFloat.float)
| PTuple (bands : list Z).

Record Image := { mode : string; size : Z * Z; getdata : list pixel }.

(** [imagem.width] *)
Definition width (im : Image) : Z := fst (size im).

Class PIL := {
  Image_open : string -> exn + Image;
  resize : Image -> Z * Z -> exn + Image;
  convert : Image -> string -> exn + Image
}.

(** What the program does to the outside, in order. *)
Inductive event :=
| Open (path : string)
| Resize (im : Image) (sz : Z * Z)
| Convert (im : Image) (to : string)
| Print (text : string).

(** Effectful code: the events so far, and a value or the exception raised. *)
Definition M (A : Type) : Type := (list event * (exn + A))%type.

Definition ret {A : Type} (a : A) : M A := ([], inr a).

Definition bind {A B : Type} (m : M A) (k : A -> M B) : M B :=
  match m with
  | (t, inl e) => (t, inl e)
  | (t, inr a) => let (t', r) := k a in ((t ++ t')%list, r)
  end.

Definition lift {A : Type} (r : exn + A) : M A := ([], r).

Definition call {A : Type} (ev : event) (r : exn + A) : M A := ([ev], r).

Definition print (text : string) : M unit := ([Print text], inr tt).

(** The body of a [try]: its exception, if any, becomes a value. *)
Definition attempt {A : Type} (m : M A) : M (exn + A) := (fst m, inr (snd m)).

Notation "x <- m ;; k" := (bind m (fun x => k))
  (at level 61, m at next level, right associativity).

Definition trace {A : Type} (m : M A) : list event := fst m.
Definition outcome {A : Type} (m : M A) : exn + A := snd m.

Definition nl : string := String (ascii_of_nat 10) "".

(** The texts passed to [print], in order; [print] ends each with a line
    separator on standard output. *)
Fixpoint printed (t : list event) : list string :=
  match t with
  | [] => []
  | Print text :: r => text :: printed r
  | _ :: r => printed r
  end.

Definition stdout (t : list event) : string :=
  String.concat "" (map (fun text => text ++ nl) (printed t)).

(** The sizes [resize] was called with. *)
Fixpoint resized (t : list event) : list (Image * (Z * Z)) :=
  match t with
  | [] => []
  | Resize im sz :: r => (im, sz) :: resized r
  | _ :: r => resized r
  end.

(** ** Ranges and slices *)

(** [range(start, stop, step)] *)
Definition py_range (start stop step : Z) : exn + list Z :=
  if step =? 0 then inl (Raise ValueError "range() arg 3 must not be zero")
  else
    let n := if 0 <? step
             then (if start <? stop then (stop - start - 1) / step + 1 else 0)
             else (if stop <? start then (start - stop - 1) / (- step) + 1 else 0) in
    inr (map (fun k => start + Z.of_nat k * step) (seq 0 (Z.to_nat n))).

(** [s[i:j]]: both bounds are clamped to the string. *)
Definition py_slice (s : string) (i j : Z) : string :=
  let n := len s in
  let clamp k := if k <? 0 then Z.max (k + n) 0 else Z.min k n in
  let lo := clamp i in
  let hi := clamp j in
  if lo <? hi then String.substring (Z.to_nat lo) (Z.to_nat (hi - lo)) s else "".

(** ** The program *)

Section Program.

Context {pil : PIL}.

(** Lines 23-27 of redimensionar_imagem: the height handed to [resize]. *)
Definition nova_altura (tamanho : Z * Z) (nova_largura : Z) : exn + Z :=
  let '(largura_original, altura_original) := tamanho in
  let? divisor := PyFloat.of_int largura_original in
  let? dividendo := PyFloat.of_int altura_original in
  let? proporcao := PyFloat.truediv dividendo divisor in
  let? largura := PyFloat.of_int nova_largura in
  PyFloat.to_int (PyFloat.mul (PyFloat.mul largura proporcao) PyFloat.lit_0_55).

Definition redimensionar_imagem (imagem : Image) (nova_largura : Z) : M Image :=
  nova_altura <- lift (nova_altura (size imagem) nova_largura) ;;
  call (Resize imagem (nova_largura, nova_altura))
       (resize imagem (nova_largura, nova_altura)).

Definition converter_para_escala_de_cinza (imagem : Image) : M Image :=
  call (Convert imagem "L") (convert imagem "L").

(** Line 45: the palette index of one pixel. *)
Definition indice (caracteres_ascii : string) (pixel_valor : pixel) : exn + Z :=
  match pixel_valor with
  | PTuple _ =>
      inl (Raise TypeError "unsupported operand type(s) for /: 'tuple' and 'int'")
  | PInt v =>
      let? fracao := PyFloat.int_truediv v 255 in
      let? ultimo := PyFloat.of_int (len caracteres_ascii - 1) in
      PyFloat.to_int (PyFloat.mul fracao ultimo)
  | PFloat x =>
      let? divisor := PyFloat.of_int 255 in
      let? fracao := PyFloat.truediv x divisor in
      let? ultimo := PyFloat.of_int (len caracteres_ascii - 1) in
      PyFloat.to_int (PyFloat.mul fracao ultimo)
  end.

(** Lines 45-46: the character appended for one pixel. *)
Definition caractere (caracteres_ascii : string) (pixel_valor : pixel)
  : exn + ascii :=
  let? indice := indice caracteres_ascii pixel_valor in
  py_index caracteres_ascii indice.

(** Lines 43-46: the loop, [caracteres] being the list built so far. *)
Fixpoint mapear_loop (caracteres_ascii : string) (pixels : list pixel)
         (caracteres : list ascii) : exn + list ascii :=
  match pixels with
  | [] => inr caracteres
  | pixel_valor :: resto =>
      let? c := caractere caracteres_ascii pixel_valor in
      mapear_loop caracteres_ascii resto (caracteres ++ [c])%list
  end.

(** Line 39: the palette the flag selects. *)
Definition paleta (invertido : bool) : string :=
  if invertido then reverse ASCII_CHARS_PADRAO else ASCII_CHARS_PADRAO.

Definition mapear_pixels_para_ascii (imagem : Image) (invertido : bool)
  : exn + string :=
  let caracteres_ascii := paleta invertido in
  let? caracteres := mapear_loop caracteres_ascii (getdata imagem) [] in
  inr (string_of_list_ascii caracteres).

(** Lines 73-74: the loop over the row starts. *)
Fixpoint formatar_loop (string_ascii : string) (largura_imagem : Z)
         (inicios : list Z) (arte_ascii_final : string) : string :=
  match inicios with
  | [] => arte_ascii_final
  | i :: resto =>
      formatar_loop string_ascii largura_imagem resto
        (arte_ascii_final ++ (py_slice string_ascii i (i + largura_imagem) ++ nl))
  end.

(** Lines 71-75. *)
Definition formatar (string_ascii : string) (largura_imagem : Z) : exn + string :=
  let? inicios := py_range 0 (len string_ascii) largura_imagem in
  inr (formatar_loop string_ascii largura_imagem inicios "").

Definition msg_nao_encontrado (caminho_imagem : string) : string :=
  "Erro: O arquivo '" ++ caminho_imagem ++ "' não foi encontrado.".

Definition msg_erro_abrir (e : exn) : string :=
  "Erro ao abrir a imagem: " ++ exn_msg e.

Definition gerar_arte_ascii (caminho_imagem : string) (largura : Z)
           (invertido : bool) : M unit :=
  aberta <- attempt (call (Open caminho_imagem) (Image_open caminho_imagem)) ;;
  match aberta with
  | inl e =>
      if is_FileNotFoundError e then print (msg_nao_encontrado caminho_imagem)
      else if is_Exception e then print (msg_erro_abrir e)
      else lift (inl e)
  | inr imagem =>
      imagem_redimensionada <- redimensionar_imagem imagem largura ;;
      imagem_cinza <- converter_para_escala_de_cinza imagem_redimensionada ;;
      string_ascii <- lift (mapear_pixels_para_ascii imagem_cinza invertido) ;;
      let largura_imagem := width imagem_redimensionada in
      arte_ascii_final <- lift (formatar string_ascii largura_imagem) ;;
      print arte_ascii_final
  end.

End Program.

(** ** The contract of the Pillow calls *)

(** An image holds one pixel per position of its size. *)
Definition well_formed (im : Image) : Prop :=
  0 <= fst (size im) /\ 0 <= snd (size im) /\
  Z.of_nat (List.length (getdata im)) = fst (size im) * snd (size im).

(** Mode L: every pixel is one luminance value in [0, 255]. *)
Definition grayscale (im : Image) : Prop :=
  exists vs, getdata im = map PInt vs /\ Forall (fun v => 0 <= v <= 255) vs.

Class PIL_laws (pil : PIL) : Prop := {
  resize_size : forall im sz r,
    resize im sz = inr r -> size r = sz /\ well_formed r;
  convert_L : forall im r,
    convert im "L" = inr r ->
    size r = size im /\
    List.length (getdata r) = List.length (getdata im) /\
    grayscale r
}.

(** ** A reference instance of the Pillow calls

    Files are an association list from paths to contents, [resize] samples
    the nearest source pixel and refuses a size below 1x1, [convert] applies
    the ITU-R 601-2 luma transform. *)
Module RefPIL.

Inductive file :=
| Decodable (im : Image)
| Undecodable.

Definition directory := list (string * file).

Fixpoint lookup (d : directory) (path : string) : option file :=
  match d with
  | [] => None
  | (p, f) :: r => if String.eqb p path then Some f else lookup r path
  end.

Definition open (d : directory) (path : string) : exn + Image :=
  match lookup d path with
  | None =>
      inl (Raise FileNotFoundError
             ("[Errno 2] No such file or directory: '" ++ path ++ "'"))
  | Some Undecodable =>
      inl (Raise UnidentifiedImageError
             ("cannot identify image file '" ++ path ++ "'"))
  | Some (Decodable im) => inr im
  end.

Definition upto (n : Z) : list Z := map Z.of_nat (seq 0 (Z.to_nat n)).

Definition sample (im : Image) (w h x y : Z) : pixel :=
  let '(wo, ho) := size im in
  let sx := (2 * x + 1) * wo / (2 * w) in
  let sy := (2 * y + 1) * ho / (2 * h) in
  nth (Z.to_nat (sy * wo + sx)) (getdata im) (PInt 0).

Definition nearest (im : Image) (sz : Z * Z) : exn + Image :=
  let '(w, h) := sz in
  if (w <? 1) || (h <? 1)
  then inl (Raise ValueError "height and width must be > 0")
  else inr {| mode := mode im;
              size := (w, h);
              getdata := flat_map (fun y => map (fun x => sample im w h x y) (upto w))
                                  (upto h) |}.

Definition clamp8 (v : Z) : Z := Z.max 0 (Z.min 255 v).

Definition luma (p : pixel) : Z :=
  match p with
  | PInt v => clamp8 v
  | PFloat x => match PyFloat.to_int x with
                | inr v => clamp8 v
                | inl _ => 0
                end
  | PTuple (r :: g :: b :: _) =>
      clamp8 ((r * 19595 + g * 38470 + b * 7471 + 32768) / 65536)
  | PTuple _ => 0
  end.

Definition to_mode (im : Image) (to : string) : exn + Image :=
  if String.eqb to "L"
  then inr {| mode := "L"; size := size im;
              getdata := map PInt (map luma (getdata im)) |}
  else inl (Raise ValueError "conversion not supported").

Definition lib (d : directory) : PIL :=
  {| Image_open := open d; resize := nearest; convert := to_mode |}.

End RefPIL.

(** ** The specification's rounding, for comparison *)

(** [round(num / den)] on exact rationals, ties to even as Python's [round]. *)
Definition round_div (num den : Z) : Z :=
  let q := num / den in
  let r := num mod den in
  match 2 * r ?= den with
  | Lt => q
  | Gt => q + 1
  | Eq => if Z.even q then q else q + 1
  end.

(** The height as the specification words it:
    [round(w * h_orig / w_orig * 0.55)]. *)
Definition spec_round_height (tamanho : Z * Z) (w : Z) : Z :=
  let '(w_orig, h_orig) := tamanho in
  round_div (w * h_orig * 55) (w_orig * 100).

(** The index as the specification words it, with its palette length 69:
    [floor(v / 255 * (69 - 1))]. *)
Definition spec_index_69 (v : Z) : Z := v * (69 - 1) / 255.

(** ** Sample images *)

Definition uniform_rgb (w h : Z) (r g b : Z) : Image :=
  {| mode := "RGB"; size := (w, h);
     getdata := repeat (PTuple [r; g; b]) (Z.to_nat (w * h)) |}.

Definition white_2x2 : Image := uniform_rgb 2 2 255 255 255.
Definition white_1x1 : Image := uniform_rgb 1 1 255 255 255.
Definition black_4x4 : Image := uniform_rgb 4 4 0 0 0.

Definition sample_dir : RefPIL.directory :=
  [ ("branco.png", RefPIL.Decodable white_2x2);
    ("ponto.png", RefPIL.Decodable white_1x1);
    ("preto.png", RefPIL.Decodable black_4x4);
    ("notas.txt", RefPIL.Undecodable) ].

(** ** A library that decodes lazily

    Pillow's [Image.open] reads the header of a file and leaves the pixel
    data for the first operation that needs them.  In this instance a file
    whose pixel buffer is shorter than its header announces opens normally,
    and [resize] raises when it loads the data. *)
Module LazyPIL.

Definition truncated (im : Image) : bool :=
  Z.of_nat (List.length (getdata im)) <? fst (size im) * snd (size im).

Definition load_and_resize (im : Image) (sz : Z * Z) : exn + Image :=
  if truncated im
  then inl (Raise OSError "image file is truncated")
  else RefPIL.nearest im sz.

Definition lib (d : RefPIL.directory) : PIL :=
  {| Image_open := RefPIL.open d;
     resize := load_and_resize;
     convert := RefPIL.to_mode |}.

End LazyPIL.

(** A 4x4 image file cut short after its first row. *)
Definition truncated_4x4 : Image :=
  {| mode := "RGB"; size := (4, 4);
     getdata := repeat (PTuple [255; 255; 255]) 4 |}.

Definition truncated_dir : RefPIL.directory :=
  [ ("cortado.png", RefPIL.Decodable truncated_4x4) ].

(** ** Vocabulary of the properties *)

(** The palette length. *)
Definition N : Z := len ASCII_CHARS_PADRAO.

(** The position of a character in the palette, if it occurs there. *)
Fixpoint find_char (c : ascii) (s : string) (from : Z) : option Z :=
  match s with
  | EmptyString => None
  | String d r => if Ascii.eqb c d then Some from else find_char c r (from + 1)
  end.

Definition position (c : ascii) : option Z := find_char c ASCII_CHARS_PADRAO 0.

(** The palette-reverse of a character: the one at the mirrored position.
    A character outside the palette (the line separator) is left alone. *)
Definition mirror (c : ascii) : ascii :=
  match position c with
  | Some i => match py_index ASCII_CHARS_PADRAO (N - 1 - i) with
              | inr d => d
              | inl _ => c
              end
  | None => c
  end.

(** The character of a luminance value under a flag. *)
Definition glyph (invertido : bool) (v : Z) : ascii :=
  match caractere (paleta invertido) (PInt v) with
  | inr c => c
  | inl _ => " "%char
  end.

Fixpoint smap (f : ascii -> ascii) (s : string) : string :=
  match s with
  | EmptyString => EmptyString
  | String c r => String (f c) (smap f r)
  end.

(** The first [h] consecutive chunks of [w] characters of a text. *)
Definition rows (s : string) (w h : nat) : list string :=
  map (fun k => String.substring (k * w) w s) (seq 0 h).

(** Every row followed by a line separator, all concatenated. *)
Definition join_lines (ls : list string) : string :=
  String.concat "" (map (fun l => l ++ nl) ls).

(** A row of the art: palette characters only, so no line separator. *)
Definition no_newline (s : string) : Prop :=
  forall k, String.get k s <> Some (ascii_of_nat 10).

(** ** Vocabulary of the further properties *)

(** The paths [Image.open] was called with. *)
Fixpoint opened (t : list event) : list string :=
  match t with
  | [] => []
  | Open path :: r => path :: opened r
  | _ :: r => opened r
  end.

(** The images [convert] was called on, with the target mode. *)
Fixpoint converted (t : list event) : list (Image * string) :=
  match t with
  | [] => []
  | Convert im to :: r => (im, to) :: converted r
  | _ :: r => converted r
  end.

(** A character of the palette. *)
Definition palette_char (c : ascii) : Prop := exists i, position c = Some i.

(** A decidable fact checked on the [n] integers from [lo] on. *)
Fixpoint holds_from (P : Z -> bool) (lo : Z) (n : nat) : bool :=
  match n with
  | O => true
  | S m => P lo && holds_from P (lo + 1) m
  end.

(** Two results that raise the same exception or both return. *)
Definition same_course {A B : Type} (x : exn + A) (y : exn + B) : Prop :=
  match x, y with
  | inl e1, inl e2 => e1 = e2
  | inr _, inr _ => True
  | _, _ => False
  end.

(** The number of chunks of [w] characters that cover [n] characters. *)
Definition chunk_count (n w : Z) : Z := (n + w - 1) / w.

(** * Properties *)

(** ** Checking a decidable fact on an initial segment of the integers *)

Lemma forallb_below (P : Z -> bool) (n : nat) :
  forallb P (map Z.of_nat (seq 0 n)) = true ->
  forall v, 0 <= v < Z.of_nat n -> P v = true.
Proof.
  intros H v Hv.
  rewrite forallb_forall in H.
  apply H.
  apply in_map_iff.
  exists (Z.to_nat v); split; [lia|].
  apply in_seq; lia.
Qed.

Ltac by_table P n :=
  apply (forallb_below P n); [vm_compute; reflexivity | simpl; lia].

(** ** The palette *)

Lemma palette_length : N = 70.
Proof. reflexivity. Qed.

Lemma reverse_length : len (reverse ASCII_CHARS_PADRAO) = 70.
Proof. reflexivity. Qed.

(** Every character occurs once: its position is where it is read. *)
Lemma position_forward i :
  0 <= i < 70 ->
  exists c, py_index ASCII_CHARS_PADRAO i = inr c /\ position c = Some i.
Proof.
  intros Hi.
  pose (P := fun i => match py_index ASCII_CHARS_PADRAO i with
                        | inr c => match position c with
                                   | Some j => j =? i
                                   | None => false
                                   end
                        | inl _ => false
                        end).
  assert (H : P i = true) by by_table P 70%nat.
  unfold P in H; clear P.
  destruct (py_index ASCII_CHARS_PADRAO i) as [e|c]; [discriminate|].
  exists c; split; [reflexivity|].
  destruct (position c) as [j|]; [|discriminate].
  apply Z.eqb_eq in H; now subst.
Qed.

(** The reversed palette read at [i] is the palette read at [N - 1 - i]. *)
Lemma position_reversed i :
  0 <= i < 70 ->
  exists c, py_index (reverse ASCII_CHARS_PADRAO) i = inr c /\
            py_index ASCII_CHARS_PADRAO (69 - i) = inr c /\
            position c = Some (69 - i).
Proof.
  intros Hi.
  pose (P := fun i => match py_index (reverse ASCII_CHARS_PADRAO) i,
                              py_index ASCII_CHARS_PADRAO (69 - i) with
                        | inr c, inr d =>
                            Ascii.eqb c d &&
                            match position c with
                            | Some j => j =? 69 - i
                            | None => false
                            end
                        | _, _ => false
                        end).
  assert (H : P i = true) by by_table P 70%nat.
  unfold P in H; clear P.
  destruct (py_index (reverse ASCII_CHARS_PADRAO) i) as [e|c]; [discriminate|].
  destruct (py_index ASCII_CHARS_PADRAO (69 - i)) as [e|d]; [discriminate|].
  apply andb_true_iff in H; destruct H as [Hcd Hp].
  apply Ascii.eqb_eq in Hcd; subst d.
  exists c; repeat split.
  destruct (position c) as [j|]; [|discriminate].
  apply Z.eqb_eq in Hp; now subst.
Qed.

(** ** The index of a luminance value *)

(** On [0, 255] the double-precision computation of line 45 agrees with the
    exact quotient [floor(v * 69 / 255)]. *)
Lemma indice_luminance v :
  0 <= v <= 255 ->
  indice ASCII_CHARS_PADRAO (PInt v) = inr (v * 69 / 255).
Proof.
  intros Hv.
  pose (P := fun v => match indice ASCII_CHARS_PADRAO (PInt v) with
                        | inr i => i =? v * 69 / 255
                        | inl _ => false
                        end).
  assert (H : P v = true) by by_table P 256%nat.
  unfold P in H; clear P.
  destruct (indice ASCII_CHARS_PADRAO (PInt v)) as [e|i]; [discriminate|].
  apply Z.eqb_eq in H; now subst.
Qed.

(** The index depends on the palette through its length only. *)
Lemma indice_reverse p :
  indice (reverse ASCII_CHARS_PADRAO) p = indice ASCII_CHARS_PADRAO p.
Proof.
  unfold indice. now rewrite reverse_length, (palette_length : len _ = 70).
Qed.

Lemma index_range v : 0 <= v <= 255 -> 0 <= v * 69 / 255 <= 69.
Proof.
  intros Hv; split.
  - apply Z.div_pos; lia.
  - apply Z.div_le_upper_bound; lia.
Qed.

(** ** Strings *)

Lemma length_append (a b : string) :
  String.length (a ++ b) = (String.length a + String.length b)%nat.
Proof. induction a as [|c a IH]; simpl; [reflexivity | now rewrite IH]. Qed.

Lemma append_nil_r (a : string) : a ++ "" = a.
Proof. induction a as [|c a IH]; simpl; [reflexivity | now rewrite IH]. Qed.

Lemma append_assoc (a b c : string) : (a ++ b) ++ c = a ++ (b ++ c).
Proof. induction a as [|x a IH]; simpl; [reflexivity | now rewrite IH]. Qed.

Lemma substring_length (s : string) :
  forall n m, (n + m <= String.length s)%nat ->
              String.length (String.substring n m s) = m.
Proof.
  induction s as [|c s IH]; intros [|n] [|m] H; simpl in *;
    try reflexivity; try lia.
  - now rewrite (IH 0%nat m) by lia.
  - apply IH; lia.
  - apply IH; lia.
Qed.

Lemma length_of_list (l : list ascii) :
  String.length (string_of_list_ascii l) = List.length l.
Proof. induction l as [|c l IH]; simpl; [reflexivity | now rewrite IH]. Qed.

Lemma get_of_list (l : list ascii) :
  forall k, String.get k (string_of_list_ascii l) = nth_error l k.
Proof.
  induction l as [|c l IH]; intros [|k]; simpl; try reflexivity. apply IH.
Qed.

Lemma smap_length f (s : string) : String.length (smap f s) = String.length s.
Proof. induction s as [|c s IH]; simpl; [reflexivity | now rewrite IH]. Qed.

Lemma smap_append f (a b : string) : smap f (a ++ b) = smap f a ++ smap f b.
Proof. induction a as [|c a IH]; simpl; [reflexivity | now rewrite IH]. Qed.

Lemma smap_substring f (s : string) :
  forall n m, smap f (String.substring n m s) = String.substring n m (smap f s).
Proof.
  induction s as [|c s IH]; intros [|n] [|m]; simpl; try reflexivity.
  - now rewrite IH.
  - apply IH.
  - apply IH.
Qed.

Lemma smap_get f (s : string) :
  forall k, String.get k (smap f s) = option_map f (String.get k s).
Proof.
  induction s as [|c s IH]; intros [|k]; simpl; try reflexivity. apply IH.
Qed.

Lemma smap_of_list f (l : list ascii) :
  smap f (string_of_list_ascii l) = string_of_list_ascii (map f l).
Proof. induction l as [|c l IH]; simpl; [reflexivity | now rewrite IH]. Qed.

Lemma get_substring (s : string) :
  forall n m k c, String.get k (String.substring n m s) = Some c ->
                  String.get (n + k) s = Some c.
Proof.
  induction s as [|x s IH]; intros [|n] [|m] [|k] c H; simpl in *;
    try discriminate; try assumption.
  - apply (IH 0%nat m k c H).
  - apply (IH n 0%nat 0%nat c H).
  - apply (IH n 0%nat (S k) c H).
  - apply (IH n (S m) 0%nat c H).
  - apply (IH n (S m) (S k) c H).
Qed.

(** ** Rows and lines *)

Lemma rows_length s w h : List.length (rows s w h) = h.
Proof. unfold rows. now rewrite length_map, length_seq. Qed.

Lemma rows_width s w h :
  (w * h <= String.length s)%nat ->
  Forall (fun l => String.length l = w) (rows s w h).
Proof.
  intros H. unfold rows. apply Forall_forall. intros l Hl.
  apply in_map_iff in Hl. destruct Hl as [k [<- Hk]].
  apply in_seq in Hk. apply substring_length. nia.
Qed.

Lemma rows_no_newline s w h :
  no_newline s -> Forall no_newline (rows s w h).
Proof.
  intros Hs. unfold rows. apply Forall_forall. intros l Hl.
  apply in_map_iff in Hl. destruct Hl as [k [<- _]].
  intros j Hj. apply get_substring in Hj. exact (Hs _ Hj).
Qed.

Lemma rows_smap f s w h : rows (smap f s) w h = map (smap f) (rows s w h).
Proof.
  unfold rows. rewrite map_map. apply map_ext. intros k.
  symmetry. apply smap_substring.
Qed.

Lemma join_lines_cons l ls : join_lines (l :: ls) = l ++ nl ++ join_lines ls.
Proof.
  unfold join_lines. destruct ls as [|l' ls].
  - reflexivity.
  - cbn [map String.concat]. now rewrite append_assoc.
Qed.

Lemma join_lines_smap f ls :
  f (ascii_of_nat 10) = ascii_of_nat 10 ->
  join_lines (map (smap f) ls) = smap f (join_lines ls).
Proof.
  intros Hf. induction ls as [|l ls IH]; [reflexivity|].
  simpl map. rewrite !join_lines_cons, IH, !smap_append.
  simpl. now rewrite Hf.
Qed.

(** ** The mapper on luminance values *)

Lemma caractere_luminance inv v :
  0 <= v <= 255 ->
  caractere (paleta inv) (PInt v) = inr (glyph inv v) /\
  py_index (paleta inv) (v * 69 / 255) = inr (glyph inv v).
Proof.
  intros Hv.
  assert (Hi : indice (paleta inv) (PInt v) = inr (v * 69 / 255)).
  { destruct inv; unfold paleta; [rewrite indice_reverse|];
      now apply indice_luminance. }
  assert (Hc : exists c, py_index (paleta inv) (v * 69 / 255) = inr c).
  { pose proof (index_range v Hv) as Hr.
    destruct inv; unfold paleta.
    - destruct (position_reversed (v * 69 / 255)) as [c [Hc _]]; [lia|eauto].
    - destruct (position_forward (v * 69 / 255)) as [c [Hc _]]; [lia|eauto]. }
  destruct Hc as [c Hc].
  assert (Hg : caractere (paleta inv) (PInt v) = inr c).
  { unfold caractere. rewrite Hi. exact Hc. }
  unfold glyph. rewrite Hg, Hc. split; reflexivity.
Qed.

Lemma mapear_loop_luminance cs (f : Z -> ascii) vs :
  forall acc,
    Forall (fun v => caractere cs (PInt v) = inr (f v)) vs ->
    mapear_loop cs (map PInt vs) acc = inr (acc ++ map f vs)%list.
Proof.
  induction vs as [|v vs IH]; intros acc H; simpl.
  - now rewrite app_nil_r.
  - inversion H as [|? ? Hv Hvs]; subst.
    rewrite Hv. simpl. rewrite IH by assumption.
    now rewrite <- app_assoc.
Qed.

Lemma mapear_luminance im inv vs :
  getdata im = map PInt vs ->
  Forall (fun v => 0 <= v <= 255) vs ->
  mapear_pixels_para_ascii im inv =
  inr (string_of_list_ascii (map (glyph inv) vs)).
Proof.
  intros Hd Hvs. unfold mapear_pixels_para_ascii.
  rewrite Hd, (mapear_loop_luminance _ (glyph inv)); [reflexivity|].
  eapply Forall_impl; [|exact Hvs].
  intros v Hv. now apply caractere_luminance.
Qed.

(** The mirrored character of the forward glyph is the inverted glyph. *)
Lemma mirror_glyph v : 0 <= v <= 255 -> mirror (glyph false v) = glyph true v.
Proof.
  intros Hv.
  pose proof (index_range v Hv) as Hr.
  destruct (caractere_luminance false v Hv) as [_ Hf].
  destruct (caractere_luminance true v Hv) as [_ Ht].
  unfold paleta in Hf, Ht.
  destruct (position_forward (v * 69 / 255)) as [c [Hc Hp]]; [lia|].
  destruct (position_reversed (v * 69 / 255)) as [d [Hd [Hd' _]]]; [lia|].
  rewrite Hc in Hf. rewrite Hd in Ht.
  injection Hf as <-. injection Ht as <-.
  unfold mirror. rewrite Hp.
  change (N - 1 - v * 69 / 255) with (69 - v * 69 / 255).
  now rewrite Hd'.
Qed.

Lemma mirror_newline : mirror (ascii_of_nat 10) = ascii_of_nat 10.
Proof. reflexivity. Qed.

Lemma mirror_newline_only c : mirror c = ascii_of_nat 10 -> c = ascii_of_nat 10.
Proof.
  destruct c as [[] [] [] [] [] [] [] []]; vm_compute; intros H;
    try reflexivity; discriminate H.
Qed.

(** A glyph is never the line separator. *)
Lemma glyph_not_newline inv v : 0 <= v <= 255 -> glyph inv v <> ascii_of_nat 10.
Proof.
  intros Hv.
  pose (P := fun v => negb (Ascii.eqb (glyph true v) (ascii_of_nat 10)) &&
                      negb (Ascii.eqb (glyph false v) (ascii_of_nat 10))).
  assert (H : P v = true) by by_table P 256%nat.
  unfold P in H; clear P.
  apply andb_true_iff in H. destruct H as [Ht Hf].
  apply negb_true_iff in Ht, Hf. apply Ascii.eqb_neq in Ht, Hf.
  now destruct inv.
Qed.

Lemma glyphs_no_newline inv vs :
  Forall (fun v => 0 <= v <= 255) vs ->
  no_newline (string_of_list_ascii (map (glyph inv) vs)).
Proof.
  intros Hvs k Hk. rewrite get_of_list in Hk.
  apply nth_error_In in Hk. apply in_map_iff in Hk.
  destruct Hk as [v [Hg Hin]].
  rewrite Forall_forall in Hvs.
  exact (glyph_not_newline inv v (Hvs v Hin) Hg).
Qed.

(** ** The line formatter *)

Lemma py_slice_chunk s i w :
  0 <= i -> 0 < w -> i + w <= len s ->
  py_slice s i (i + w) = String.substring (Z.to_nat i) (Z.to_nat w) s.
Proof.
  intros Hi Hw Hl. unfold py_slice.
  destruct (Z.ltb_spec i 0); [lia|].
  destruct (Z.ltb_spec (i + w) 0); [lia|].
  rewrite !Z.min_l by lia.
  destruct (Z.ltb_spec i (i + w)); [|lia].
  do 2 f_equal. lia.
Qed.

Lemma py_range_chunks w h :
  0 < w -> 0 <= h ->
  py_range 0 (w * h) w =
  inr (map (fun k => 0 + Z.of_nat k * w) (seq 0 (Z.to_nat h))).
Proof.
  intros Hw Hh. unfold py_range.
  destruct (Z.eqb_spec w 0); [lia|].
  destruct (Z.ltb_spec 0 w); [|lia].
  do 3 f_equal.
  destruct (Z.ltb_spec 0 (w * h)) as [Hp|Hp].
  - assert (0 < h) by nia.
    assert ((w * h - 0 - 1) / w = h - 1); [|lia].
    symmetry. apply (Z.div_unique_pos _ _ _ (w - 1)); lia.
  - nia.
Qed.

Lemma formatar_loop_rows s w n :
  0 < w ->
  forall a acc,
    (Z.of_nat (a + n) * w <= len s) ->
    formatar_loop s w (map (fun k => 0 + Z.of_nat k * w) (seq a n)) acc =
    acc ++ join_lines (map (fun k => String.substring (k * Z.to_nat w) (Z.to_nat w) s)
                           (seq a n)).
Proof.
  intros Hw. induction n as [|n IH]; intros a acc Hl.
  - simpl. now rewrite append_nil_r.
  - cbn [seq map formatar_loop].
    rewrite IH by (rewrite <- Nat.add_succ_comm in Hl; exact Hl).
    rewrite join_lines_cons, py_slice_chunk by nia.
    replace (Z.to_nat (0 + Z.of_nat a * w)) with (a * Z.to_nat w)%nat by nia.
    now rewrite !append_assoc.
Qed.

Lemma formatar_rows s w h :
  0 < w -> 0 <= h -> len s = w * h ->
  formatar s w = inr (join_lines (rows s (Z.to_nat w) (Z.to_nat h))).
Proof.
  intros Hw Hh Hl. unfold formatar.
  rewrite Hl, py_range_chunks by assumption. simpl and_then.
  rewrite formatar_loop_rows by (try assumption; nia).
  reflexivity.
Qed.

Lemma formatar_zero_width s : exists e, formatar s 0 = inl e.
Proof. unfold formatar, py_range. simpl. eauto. Qed.

(** ** The reference instance meets the contract *)

Lemma flat_map_length_const {A B : Type} (f : A -> list B) (n : nat) (l : list A) :
  (forall a, List.length (f a) = n) ->
  List.length (flat_map f l) = (List.length l * n)%nat.
Proof.
  intros Hf. induction l as [|a l IH]; simpl; [reflexivity|].
  now rewrite length_app, Hf, IH.
Qed.

Lemma upto_length n : List.length (RefPIL.upto n) = Z.to_nat n.
Proof. unfold RefPIL.upto. now rewrite length_map, length_seq. Qed.

Lemma clamp8_range v : 0 <= RefPIL.clamp8 v <= 255.
Proof. unfold RefPIL.clamp8. lia. Qed.

Lemma luma_range p : 0 <= RefPIL.luma p <= 255.
Proof.
  destruct p as [v|x|[|r [|g [|b bs]]]]; simpl; try lia;
    try apply clamp8_range.
  destruct (PyFloat.to_int x); [lia | apply clamp8_range].
Qed.

#[export] Instance RefPIL_laws (d : RefPIL.directory) : PIL_laws (RefPIL.lib d).
Proof.
  split.
  - intros im [w h] r. simpl. unfold RefPIL.nearest.
    destruct (Z.ltb_spec w 1); [discriminate|].
    destruct (Z.ltb_spec h 1); [discriminate|].
    simpl. intros Hr. injection Hr as <-. simpl.
    split; [reflexivity|]. unfold well_formed. simpl.
    repeat split; try lia.
    rewrite (flat_map_length_const _ (Z.to_nat w)).
    + rewrite upto_length. lia.
    + intros y. now rewrite length_map, upto_length.
  - intros im r. simpl. unfold RefPIL.to_mode. simpl.
    intros Hr. injection Hr as <-. simpl.
    repeat split.
    + now rewrite !length_map.
    + exists (map RefPIL.luma (getdata im)). split; [reflexivity|].
      apply Forall_forall. intros v Hv. apply in_map_iff in Hv.
      destruct Hv as [p [<- _]]. apply luma_range.
Qed.

(** The lazy instance meets the same contract: a [resize] that raises
    promises nothing. *)
#[export] Instance LazyPIL_laws (d : RefPIL.directory) : PIL_laws (LazyPIL.lib d).
Proof.
  split.
  - intros im sz r. simpl. unfold LazyPIL.load_and_resize.
    destruct (LazyPIL.truncated im); [discriminate|].
    apply (resize_size (PIL_laws := RefPIL_laws d)).
  - apply (convert_L (PIL_laws := RefPIL_laws d)).
Qed.

(** ** Runs of the orchestrator *)

(** The run on given results of the Pillow calls. *)
Lemma gerar_run {pil : PIL} path largura inv im h r g vs :
  Image_open path = inr im ->
  nova_altura (size im) largura = inr h ->
  resize im (largura, h) = inr r ->
  size r = (largura, h) ->
  convert r "L" = inr g ->
  getdata g = map PInt vs ->
  Forall (fun v => 0 <= v <= 255) vs ->
  Z.of_nat (List.length vs) = largura * h ->
  0 < largura -> 0 <= h ->
  gerar_arte_ascii path largura inv =
  ([Open path; Resize im (largura, h); Convert r "L";
    Print (join_lines (rows (string_of_list_ascii (map (glyph inv) vs))
                            (Z.to_nat largura) (Z.to_nat h)))],
   inr tt).
Proof.
  intros Ho Hh Hr Hs Hc Hd Hvs Hl Hw Hh0.
  unfold gerar_arte_ascii, redimensionar_imagem, converter_para_escala_de_cinza.
  unfold attempt, call, lift, print, bind. simpl.
  rewrite Ho, Hh, Hr, Hc. simpl.
  rewrite (mapear_luminance g inv vs Hd Hvs). simpl.
  unfold width. rewrite Hs. simpl fst.
  rewrite (formatar_rows _ largura h); try assumption.
  - reflexivity.
  - unfold len. now rewrite length_of_list, length_map.
Qed.

(** The run once the file is open, stage by stage: the first exception ends
    it, with the events up to the call that raised. *)
Lemma gerar_opened {pil : PIL} path largura inv im :
  Image_open path = inr im ->
  gerar_arte_ascii path largura inv =
  match nova_altura (size im) largura with
  | inl e => ([Open path], inl e)
  | inr h =>
      match resize im (largura, h) with
      | inl e => ([Open path; Resize im (largura, h)], inl e)
      | inr r =>
          match convert r "L" with
          | inl e => ([Open path; Resize im (largura, h); Convert r "L"], inl e)
          | inr g =>
              match (let? s := mapear_pixels_para_ascii g inv in
                     formatar s (width r)) with
              | inl e =>
                  ([Open path; Resize im (largura, h); Convert r "L"], inl e)
              | inr arte =>
                  ([Open path; Resize im (largura, h); Convert r "L"; Print arte],
                   inr tt)
              end
          end
      end
  end.
Proof.
  intros Ho.
  unfold gerar_arte_ascii, redimensionar_imagem, converter_para_escala_de_cinza.
  unfold attempt, call, lift, print, bind. simpl. rewrite Ho.
  destruct (nova_altura (size im) largura) as [e|h]; [reflexivity|].
  destruct (resize im (largura, h)) as [e|r]; [reflexivity|].
  destruct (convert r "L") as [e|g]; [reflexivity|].
  destruct (mapear_pixels_para_ascii g inv) as [e|s]; [reflexivity|].
  simpl. destruct (formatar s (width r)) as [e|arte]; reflexivity.
Qed.

(** A run that returns normally after opening the file went through every
    stage, on a grayscale buffer of [largura * h] values. *)
Lemma gerar_success {pil : PIL} {laws : PIL_laws pil} path largura inv im :
  Image_open path = inr im ->
  outcome (gerar_arte_ascii path largura inv) = inr tt ->
  exists h r g vs,
    nova_altura (size im) largura = inr h /\
    resize im (largura, h) = inr r /\
    size r = (largura, h) /\
    convert r "L" = inr g /\
    getdata g = map PInt vs /\
    Forall (fun v => 0 <= v <= 255) vs /\
    Z.of_nat (List.length vs) = largura * h /\
    0 < largura /\ 0 <= h.
Proof.
  intros Ho Hok. rewrite (gerar_opened _ _ _ _ Ho) in Hok.
  destruct (nova_altura (size im) largura) as [e|h] eqn:Hh; [discriminate|].
  destruct (resize im (largura, h)) as [e|r] eqn:Hr; [discriminate|].
  destruct (convert r "L") as [e|g] eqn:Hc; [discriminate|].
  destruct (resize_size _ _ _ Hr) as [Hs [Hw0 [Hh0 Hlen]]].
  destruct (convert_L _ _ Hc) as [_ [Hlg [vs [Hd Hvs]]]].
  rewrite Hs in Hw0, Hh0, Hlen. simpl in Hw0, Hh0, Hlen.
  assert (Hl : Z.of_nat (List.length vs) = largura * h).
  { rewrite <- Hlen, <- Hlg, Hd. now rewrite length_map. }
  exists h, r, g, vs. repeat split; try assumption.
  destruct (Z.eq_dec largura 0) as [Hz|Hz]; [|lia].
  exfalso.
  rewrite (mapear_luminance g inv vs Hd Hvs) in Hok. simpl and_then in Hok.
  unfold width in Hok. rewrite Hs in Hok. simpl fst in Hok. rewrite Hz in Hok.
  destruct (formatar_zero_width (string_of_list_ascii (map (glyph inv) vs)))
    as [e He].
  rewrite He in Hok. discriminate.
Qed.

(** ** The height on sample sizes *)

(** A 640x480 image at width 80: [int(80 * 0.75 * 0.55) = int(33.0...) = 33]. *)
Example nova_altura_vga : nova_altura (640, 480) 80 = inr 33.
Proof. reflexivity. Qed.

(** The truncation is of the double-precision product, which can fall below
    the exact one: for a 55x29 image at width 100 the exact product
    [100 * 29 / 55 * 0.55] is 29, the computed one is just under it. *)
Example nova_altura_inexact :
  nova_altura (55, 29) 100 = inr 28 /\ 100 * 29 * 55 / (55 * 100) = 29.
Proof. split; reflexivity. Qed.

(** A negative width gives a negative height: [int(-1.65) = -1]. *)
Example nova_altura_negative : nova_altura (2, 2) (-3) = inr (-1).
Proof. reflexivity. Qed.

(** An original width of 0 raises on the division. *)
Example nova_altura_zero_width :
  nova_altura (0, 5) 80 = inl (Raise ZeroDivisionError "float division by zero").
Proof. reflexivity. Qed.

(** * The claims *)

(** ** C1: size of the output *)

(** C1, as stated, fails: the height handed to [resize] is not
    [round(w * h_orig / w_orig * 0.55)].  For a 1x1 image and width 3 the
    product is 1.65; line 27 truncates it to 1, rounding gives 2. *)
Lemma C1_height_is_not_rounded :
  ~ (forall tamanho w,
        0 < fst tamanho -> 0 < w ->
        nova_altura tamanho w = inr (spec_round_height tamanho w)).
Proof.
  intros H.
  assert (Hd := H (1, 1) 3 Z.lt_0_1 (eq_refl : 0 < 3)).
  vm_compute in Hd. discriminate Hd.
Qed.

(** C1, amended: for an image of original width above 0 and a target width
    [w] above 0, the height handed to [resize] is [nova_altura], the
    truncation toward zero of the double-precision product
    [(w * (h_orig / float(w_orig))) * 0.55]; whenever the run completes, the
    art printed has exactly that many lines, and every line has exactly [w]
    characters, none of them a line separator. *)
Theorem C1_output_dimensions {pil : PIL} {laws : PIL_laws pil}
        path largura inv im :
  Image_open path = inr im ->
  0 < fst (size im) -> 0 < largura ->
  outcome (gerar_arte_ascii path largura inv) = inr tt ->
  exists h ls,
    nova_altura (size im) largura = inr h /\
    resized (trace (gerar_arte_ascii path largura inv)) = [(im, (largura, h))] /\
    printed (trace (gerar_arte_ascii path largura inv)) = [join_lines ls] /\
    Z.of_nat (List.length ls) = h /\
    Forall (fun l => len l = largura /\ no_newline l) ls.
Proof.
  intros Ho _ _ Hok.
  destruct (gerar_success path largura inv im Ho Hok)
    as (h & r & g & vs & Hh & Hr & Hs & Hc & Hd & Hvs & Hl & Hw & Hh0).
  rewrite (gerar_run path largura inv im h r g vs) by assumption.
  exists h, (rows (string_of_list_ascii (map (glyph inv) vs))
                  (Z.to_nat largura) (Z.to_nat h)).
  repeat split; try assumption.
  - rewrite rows_length. lia.
  - apply Forall_forall. intros l Hin. split.
    + assert (Hwd := rows_width (string_of_list_ascii (map (glyph inv) vs))
                                (Z.to_nat largura) (Z.to_nat h)).
      rewrite Forall_forall in Hwd. unfold len. rewrite (Hwd ltac:(
        rewrite length_of_list, length_map; nia) l Hin). lia.
    + assert (Hnn := rows_no_newline _ (Z.to_nat largura) (Z.to_nat h)
                                     (glyphs_no_newline inv vs Hvs)).
      rewrite Forall_forall in Hnn. exact (Hnn l Hin).
Qed.

Lemma C1_output_dimensions_witness :
  exists h ls,
    nova_altura (size black_4x4) 8 = inr h /\
    resized (trace (gerar_arte_ascii (pil := RefPIL.lib sample_dir)
                                     "preto.png" 8 false))
    = [(black_4x4, (8, h))] /\
    printed (trace (gerar_arte_ascii (pil := RefPIL.lib sample_dir)
                                     "preto.png" 8 false))
    = [join_lines ls] /\
    Z.of_nat (List.length ls) = h /\
    Forall (fun l => len l = 8 /\ no_newline l) ls.
Proof.
  apply (C1_output_dimensions (pil := RefPIL.lib sample_dir)
                              "preto.png" 8 false black_4x4).
  - reflexivity.
  - simpl. lia.
  - lia.
  - vm_compute. reflexivity.
Defined.

(** ** C2: the palette lookup stays in bounds *)

(** C2, as stated, fails on the palette length: the palette has 70
    characters, not 69, and luminance 255 has index 69, outside [0, 68]. *)
Lemma C2_palette_is_not_69 :
  len ASCII_CHARS_PADRAO <> 69 /\
  exists i, indice ASCII_CHARS_PADRAO (PInt 255) = inr i /\
            ~ (0 <= i <= 69 - 1).
Proof.
  split; [discriminate|].
  exists 69. split; [reflexivity | lia].
Qed.

(** C2, amended: the palette is non-empty and its length is fixed at N = 70
    under either flag; for every luminance value in [0, 255] the index
    computed by the mapper is in [0, N - 1], and the palette lookup at that
    index returns a character. *)
Theorem C2_index_in_bounds :
  N = 70 /\
  forall inv v,
    0 <= v <= 255 ->
    len (paleta inv) = N /\
    exists i c,
      indice (paleta inv) (PInt v) = inr i /\
      0 <= i <= N - 1 /\
      py_index (paleta inv) i = inr c.
Proof.
  split; [reflexivity|].
  intros inv v Hv. split; [now destruct inv|].
  destruct (caractere_luminance inv v Hv) as [_ Hc].
  exists (v * 69 / 255), (glyph inv v).
  repeat split.
  - destruct inv; unfold paleta; [rewrite indice_reverse|];
      now apply indice_luminance.
  - apply (index_range v Hv).
  - change (N - 1) with 69. apply (index_range v Hv).
  - exact Hc.
Qed.

Lemma C2_index_in_bounds_witness :
  len (paleta true) = N /\
  exists i c,
    indice (paleta true) (PInt 255) = inr i /\
    0 <= i <= N - 1 /\
    py_index (paleta true) i = inr c.
Proof.
  apply (proj2 C2_index_in_bounds true 255). lia.
Defined.

(** ** C3: what the mapper emits *)

(** C3, as stated, fails on the palette length: for luminance 255 the mapper
    emits the palette's 70th character (index 69, a space), while
    [palette[floor(255 / 255 * (69 - 1))]] is the character at index 68
    (a full stop). *)
Lemma C3_index_is_not_over_68 :
  exists c d,
    mapear_pixels_para_ascii
      {| mode := "L"; size := (1, 1); getdata := [PInt 255] |} false
    = inr (String c "") /\
    py_index ASCII_CHARS_PADRAO (spec_index_69 255) = inr d /\
    c <> d.
Proof.
  exists " "%char, "."%char. repeat split. discriminate.
Qed.

(** C3, amended: with N = 70, for every grayscale pixel sequence and flag
    the mapper returns one character per pixel, in the order of the buffer,
    and the character for the value [v] is [palette[floor(v * (N - 1) / 255)]],
    the palette being the forward one when the flag is false and the
    reversed one when it is true. *)
Theorem C3_mapper_output im inv vs :
  getdata im = map PInt vs ->
  Forall (fun v => 0 <= v <= 255) vs ->
  N = 70 /\
  exists s,
    mapear_pixels_para_ascii im inv = inr s /\
    String.length s = List.length vs /\
    forall k v,
      nth_error vs k = Some v ->
      exists c,
        String.get k s = Some c /\
        py_index (if inv then reverse ASCII_CHARS_PADRAO else ASCII_CHARS_PADRAO)
                 (v * (N - 1) / 255) = inr c.
Proof.
  intros Hd Hvs. split; [reflexivity|].
  exists (string_of_list_ascii (map (glyph inv) vs)).
  repeat split.
  - now apply mapear_luminance.
  - now rewrite length_of_list, length_map.
  - intros k v Hk. exists (glyph inv v). split.
    + rewrite get_of_list. now apply map_nth_error.
    + rewrite Forall_forall in Hvs.
      apply (caractere_luminance inv v). apply Hvs.
      eapply nth_error_In; eassumption.
Qed.

Lemma C3_mapper_output_witness :
  N = 70 /\
  exists s,
    mapear_pixels_para_ascii
      {| mode := "L"; size := (3, 1); getdata := map PInt [0; 128; 255] |} true
    = inr s /\
    String.length s = 3%nat /\
    forall k v,
      nth_error [0; 128; 255] k = Some v ->
      exists c,
        String.get k s = Some c /\
        py_index (reverse ASCII_CHARS_PADRAO) (v * (N - 1) / 255) = inr c.
Proof.
  apply (C3_mapper_output
           {| mode := "L"; size := (3, 1); getdata := map PInt [0; 128; 255] |}
           true [0; 128; 255]).
  - reflexivity.
  - repeat constructor; lia.
Defined.

(** ** C4: a width of 0 or less *)

(** C4, as stated, fails: no width is validated.  With width 0 on the 2x2
    sample image the orchestrator calls [resize] with the size (0, 0). *)
Lemma C4_width_not_validated :
  ~ (forall (pil : PIL) path largura inv,
        largura <= 0 ->
        resized (trace (gerar_arte_ascii path largura inv)) = []).
Proof.
  intros H.
  assert (Hd := H (RefPIL.lib sample_dir) "branco.png" 0 false (Z.le_refl 0)).
  vm_compute in Hd. discriminate Hd.
Qed.

(** C4, amended: a target width of 0 or less is not validated before the
    resize.  Once the file is open and the height [h] is computed, the
    orchestrator calls [resize] with [(width, h)], the width unchanged; the
    run then ends with an exception raised by a later stage (the library's
    [resize], or [range] with step 0), which reaches the caller, and nothing
    is printed. *)
Theorem C4_width_reaches_resize {pil : PIL} {laws : PIL_laws pil}
        path largura inv im h :
  largura <= 0 ->
  Image_open path = inr im ->
  nova_altura (size im) largura = inr h ->
  resized (trace (gerar_arte_ascii path largura inv)) = [(im, (largura, h))] /\
  printed (trace (gerar_arte_ascii path largura inv)) = [] /\
  (exists e, outcome (gerar_arte_ascii path largura inv) = inl e) /\
  (forall e, resize im (largura, h) = inl e ->
             gerar_arte_ascii path largura inv =
             ([Open path; Resize im (largura, h)], inl e)).
Proof.
  intros Hw Ho Hh.
  assert (Hnok : outcome (gerar_arte_ascii path largura inv) <> inr tt).
  { intros Hok.
    destruct (gerar_success path largura inv im Ho Hok)
      as (h' & r & g & vs & _ & _ & _ & _ & _ & _ & _ & Hpos & _).
    lia. }
  rewrite (gerar_opened _ _ _ _ Ho), Hh in *.
  destruct (resize im (largura, h)) as [e|r].
  { split; [|split; [|split]]; try reflexivity.
    - eexists; reflexivity.
    - intros e' He'. now injection He' as <-. }
  destruct (convert r "L") as [e|g].
  { split; [|split; [|split]]; try reflexivity; try discriminate.
    eexists; reflexivity. }
  destruct (let? s := mapear_pixels_para_ascii g inv in formatar s (width r))
    as [e|arte].
  { split; [|split; [|split]]; try reflexivity; try discriminate.
    eexists; reflexivity. }
  exfalso. apply Hnok. reflexivity.
Qed.

Lemma C4_width_reaches_resize_witness :
  resized (trace (gerar_arte_ascii (pil := RefPIL.lib sample_dir)
                                   "branco.png" (-3) false))
  = [(white_2x2, (-3, -1))] /\
  printed (trace (gerar_arte_ascii (pil := RefPIL.lib sample_dir)
                                   "branco.png" (-3) false)) = [] /\
  (exists e, outcome (gerar_arte_ascii (pil := RefPIL.lib sample_dir)
                                       "branco.png" (-3) false) = inl e) /\
  (forall e, resize (PIL := RefPIL.lib sample_dir) white_2x2 (-3, -1) = inl e ->
             gerar_arte_ascii (pil := RefPIL.lib sample_dir)
                              "branco.png" (-3) false =
             ([Open "branco.png"; Resize white_2x2 (-3, -1)], inl e)).
Proof.
  apply (C4_width_reaches_resize (pil := RefPIL.lib sample_dir)
                                 "branco.png" (-3) false white_2x2 (-1)).
  - lia.
  - reflexivity.
  - reflexivity.
Defined.

(** ** C5: a file that cannot be loaded *)

(** The load failures that lines 52-59 handle.  When [Image.open] itself
    raises [FileNotFoundError] or any other [Exception] (a file it cannot
    identify raises [UnidentifiedImageError]), the orchestrator prints one
    message naming the failure (the path for a missing file, the text of the
    exception otherwise) and returns normally; [resize] is never called and
    no art is printed. *)
Theorem C5_load_failure {pil : PIL} path largura inv e :
  Image_open path = inl e ->
  is_Exception e = true ->
  gerar_arte_ascii path largura inv =
  ([Open path;
    Print (if is_FileNotFoundError e then msg_nao_encontrado path
           else msg_erro_abrir e)],
   inr tt) /\
  outcome (gerar_arte_ascii path largura inv) = inr tt /\
  resized (trace (gerar_arte_ascii path largura inv)) = [] /\
  printed (trace (gerar_arte_ascii path largura inv)) =
  [if is_FileNotFoundError e
   then "Erro: O arquivo '" ++ path ++ "' não foi encontrado."
   else "Erro ao abrir a imagem: " ++ exn_msg e].
Proof.
  intros Ho He.
  assert (Hrun : gerar_arte_ascii path largura inv =
                 ([Open path;
                   Print (if is_FileNotFoundError e then msg_nao_encontrado path
                          else msg_erro_abrir e)],
                  inr tt)).
  { unfold gerar_arte_ascii, attempt, call, bind. simpl. rewrite Ho.
    destruct (is_FileNotFoundError e); [reflexivity|].
    rewrite He. reflexivity. }
  rewrite Hrun. repeat split.
Qed.

Lemma C5_load_failure_witness :
  gerar_arte_ascii (pil := RefPIL.lib sample_dir) "notas.txt" 80 false =
  ([Open "notas.txt";
    Print "Erro ao abrir a imagem: cannot identify image file 'notas.txt'"],
   inr tt) /\
  gerar_arte_ascii (pil := RefPIL.lib sample_dir) "nada.png" 80 true =
  ([Open "nada.png"; Print "Erro: O arquivo 'nada.png' não foi encontrado."],
   inr tt).
Proof.
  split.
  - apply (C5_load_failure (pil := RefPIL.lib sample_dir) "notas.txt" 80 false
             (Raise UnidentifiedImageError
                    "cannot identify image file 'notas.txt'"));
      reflexivity.
  - apply (C5_load_failure (pil := RefPIL.lib sample_dir) "nada.png" 80 true
             (Raise FileNotFoundError
                    "[Errno 2] No such file or directory: 'nada.png'"));
      reflexivity.
Defined.

(** C5 fails on the code.  The [try] of lines 52-59 guards [Image.open]
    only, and the library decodes lazily: a file that is not a decodable
    image can pass [Image.open] and fail when [resize] loads its pixel data.
    Whatever [resize] raises then reaches the caller, after the calls to
    open and resize and with nothing printed, where the claim promises a
    message and a normal return. *)
Theorem C5_decode_failure_uncaught {pil : PIL} path largura inv im h e :
  Image_open path = inr im ->
  nova_altura (size im) largura = inr h ->
  resize im (largura, h) = inl e ->
  gerar_arte_ascii path largura inv =
  ([Open path; Resize im (largura, h)], inl e) /\
  outcome (gerar_arte_ascii path largura inv) = inl e /\
  printed (trace (gerar_arte_ascii path largura inv)) = [] /\
  stdout (trace (gerar_arte_ascii path largura inv)) = "".
Proof.
  intros Ho Hh Hr.
  assert (Hrun : gerar_arte_ascii path largura inv =
                 ([Open path; Resize im (largura, h)], inl e)).
  { unfold gerar_arte_ascii, redimensionar_imagem.
    unfold attempt, call, lift, bind. simpl.
    rewrite Ho, Hh. simpl. rewrite Hr. reflexivity. }
  rewrite Hrun. repeat split.
Qed.

Lemma C5_decode_failure_uncaught_witness :
  gerar_arte_ascii (pil := LazyPIL.lib truncated_dir) "cortado.png" 8 false =
  ([Open "cortado.png"; Resize truncated_4x4 (8, 4)],
   inl (Raise OSError "image file is truncated")) /\
  outcome (gerar_arte_ascii (pil := LazyPIL.lib truncated_dir)
                            "cortado.png" 8 false)
  = inl (Raise OSError "image file is truncated") /\
  printed (trace (gerar_arte_ascii (pil := LazyPIL.lib truncated_dir)
                                   "cortado.png" 8 false)) = [] /\
  stdout (trace (gerar_arte_ascii (pil := LazyPIL.lib truncated_dir)
                                  "cortado.png" 8 false)) = "".
Proof.
  apply (C5_decode_failure_uncaught (pil := LazyPIL.lib truncated_dir)
           "cortado.png" 8 false truncated_4x4 4
           (Raise OSError "image file is truncated")); reflexivity.
Defined.

(** ** C6: the inverted output mirrors the plain one *)

(** C6: for every image and width on which the plain run completes, the
    inverted run completes too, and its art is the plain art with every
    character replaced by its palette-reverse: wherever the plain art has
    [palette[i]], the inverted art has [palette[N - 1 - i]] at the same
    position; the line separators stay in place. *)
Theorem C6_inverted_mirrors_plain {pil : PIL} {laws : PIL_laws pil}
        path largura im :
  Image_open path = inr im ->
  outcome (gerar_arte_ascii path largura false) = inr tt ->
  exists plain inverted,
    printed (trace (gerar_arte_ascii path largura false)) = [plain] /\
    printed (trace (gerar_arte_ascii path largura true)) = [inverted] /\
    outcome (gerar_arte_ascii path largura true) = inr tt /\
    String.length inverted = String.length plain /\
    inverted = smap mirror plain /\
    (forall k i c,
        0 <= i < N ->
        String.get k plain = Some c ->
        py_index ASCII_CHARS_PADRAO i = inr c ->
        exists d, String.get k inverted = Some d /\
                  py_index ASCII_CHARS_PADRAO (N - 1 - i) = inr d) /\
    (forall k, String.get k plain = Some (ascii_of_nat 10) <->
               String.get k inverted = Some (ascii_of_nat 10)).
Proof.
  intros Ho Hok.
  destruct (gerar_success path largura false im Ho Hok)
    as (h & r & g & vs & Hh & Hr & Hs & Hc & Hd & Hvs & Hl & Hw & Hh0).
  rewrite (gerar_run path largura false im h r g vs) by assumption.
  rewrite (gerar_run path largura true im h r g vs) by assumption.
  set (sf := string_of_list_ascii (map (glyph false) vs)).
  set (st := string_of_list_ascii (map (glyph true) vs)).
  assert (Hst : st = smap mirror sf).
  { unfold st, sf. rewrite smap_of_list, map_map. f_equal.
    apply map_ext_in. intros v Hv. symmetry. apply mirror_glyph.
    rewrite Forall_forall in Hvs. now apply Hvs. }
  assert (Hart : join_lines (rows st (Z.to_nat largura) (Z.to_nat h)) =
                 smap mirror (join_lines (rows sf (Z.to_nat largura) (Z.to_nat h)))).
  { rewrite Hst, rows_smap. apply join_lines_smap. exact mirror_newline. }
  exists (join_lines (rows sf (Z.to_nat largura) (Z.to_nat h))),
         (join_lines (rows st (Z.to_nat largura) (Z.to_nat h))).
  rewrite Hart.
  split; [reflexivity|]. split; [reflexivity|]. split; [reflexivity|].
  split; [apply smap_length|]. split; [reflexivity|]. split.
  - intros k i c Hi Hk Hc'.
    change N with 70 in *.
    destruct (position_forward i Hi) as [c' [Hc'' Hp]].
    rewrite Hc' in Hc''. injection Hc'' as <-.
    destruct (position_forward (70 - 1 - i)) as [d [Hd' _]]; [lia|].
    exists d. split; [|exact Hd'].
    rewrite smap_get, Hk. simpl. f_equal.
    unfold mirror. rewrite Hp. change N with 70. now rewrite Hd'.
  - intros k. rewrite smap_get.
    destruct (String.get k (join_lines (rows sf (Z.to_nat largura) (Z.to_nat h))))
      as [c|] eqn:Hk; simpl; [|split; discriminate].
    split.
    + intros Hc'. injection Hc' as ->. now rewrite mirror_newline.
    + intros Hm. injection Hm as Hm. f_equal. now apply mirror_newline_only.
Qed.

Lemma C6_inverted_mirrors_plain_witness :
  exists plain inverted,
    printed (trace (gerar_arte_ascii (pil := RefPIL.lib sample_dir)
                                     "preto.png" 8 false)) = [plain] /\
    printed (trace (gerar_arte_ascii (pil := RefPIL.lib sample_dir)
                                     "preto.png" 8 true)) = [inverted] /\
    outcome (gerar_arte_ascii (pil := RefPIL.lib sample_dir)
                              "preto.png" 8 true) = inr tt /\
    String.length inverted = String.length plain /\
    inverted = smap mirror plain /\
    (forall k i c,
        0 <= i < N ->
        String.get k plain = Some c ->
        py_index ASCII_CHARS_PADRAO i = inr c ->
        exists d, String.get k inverted = Some d /\
                  py_index ASCII_CHARS_PADRAO (N - 1 - i) = inr d) /\
    (forall k, String.get k plain = Some (ascii_of_nat 10) <->
               String.get k inverted = Some (ascii_of_nat 10)).
Proof.
  apply (C6_inverted_mirrors_plain (pil := RefPIL.lib sample_dir)
                                   "preto.png" 8 black_4x4).
  - reflexivity.
  - vm_compute. reflexivity.
Defined.

(** ** C7: the mapping is monotonic *)

(** C7: for luminance values [v1 <= v2] in [0, 255], the index computed for
    [v1] is at most the index computed for [v2], and so is the position of
    the emitted character in the palette when the flag is off; with the
    inverted flag the position, in the original density-ordered palette, of
    the character emitted for [v2] is at most that of the character emitted
    for [v1]. *)
Theorem C7_monotonic v1 v2 :
  0 <= v1 -> v1 <= v2 -> v2 <= 255 ->
  (exists i1 i2 c1 c2,
      indice (paleta false) (PInt v1) = inr i1 /\
      indice (paleta false) (PInt v2) = inr i2 /\
      i1 <= i2 /\
      caractere (paleta false) (PInt v1) = inr c1 /\
      caractere (paleta false) (PInt v2) = inr c2 /\
      position c1 = Some i1 /\ position c2 = Some i2) /\
  (exists c1 c2 p1 p2,
      caractere (paleta true) (PInt v1) = inr c1 /\
      caractere (paleta true) (PInt v2) = inr c2 /\
      position c1 = Some p1 /\ position c2 = Some p2 /\
      p2 <= p1).
Proof.
  intros H0 H12 H255.
  assert (Hv1 : 0 <= v1 <= 255) by lia.
  assert (Hv2 : 0 <= v2 <= 255) by lia.
  pose proof (index_range v1 Hv1) as Hr1.
  pose proof (index_range v2 Hv2) as Hr2.
  assert (Hmono : v1 * 69 / 255 <= v2 * 69 / 255)
    by (apply Z.div_le_mono; lia).
  split.
  - destruct (position_forward (v1 * 69 / 255)) as [c1 [Hc1 Hp1]]; [lia|].
    destruct (position_forward (v2 * 69 / 255)) as [c2 [Hc2 Hp2]]; [lia|].
    exists (v1 * 69 / 255), (v2 * 69 / 255), c1, c2.
    unfold caractere, paleta.
    rewrite !indice_luminance by assumption. simpl and_then.
    repeat split; assumption.
  - destruct (position_reversed (v1 * 69 / 255)) as [c1 [Hc1 [_ Hp1]]]; [lia|].
    destruct (position_reversed (v2 * 69 / 255)) as [c2 [Hc2 [_ Hp2]]]; [lia|].
    exists c1, c2, (69 - v1 * 69 / 255), (69 - v2 * 69 / 255).
    unfold caractere, paleta.
    rewrite !indice_reverse, !indice_luminance by assumption. simpl and_then.
    repeat split; try assumption. lia.
Qed.

Lemma C7_monotonic_witness :
  (exists i1 i2 c1 c2,
      indice (paleta false) (PInt 100) = inr i1 /\
      indice (paleta false) (PInt 200) = inr i2 /\
      i1 <= i2 /\
      caractere (paleta false) (PInt 100) = inr c1 /\
      caractere (paleta false) (PInt 200) = inr c2 /\
      position c1 = Some i1 /\ position c2 = Some i2) /\
  (exists c1 c2 p1 p2,
      caractere (paleta true) (PInt 100) = inr c1 /\
      caractere (paleta true) (PInt 200) = inr c2 /\
      position c1 = Some p1 /\ position c2 = Some p2 /\
      p2 <= p1).
Proof.
  apply (C7_monotonic 100 200); lia.
Defined.

(** ** C8: black and white images *)

(** C8: without the flag, on a buffer whose every luminance is 0 the mapper
    emits [palette[0]] at every position, and on a buffer whose every
    luminance is 255 it emits [palette[N - 1]] at every position. *)
Theorem C8_black_and_white im :
  (Forall (eq (PInt 0)) (getdata im) ->
   exists s c,
     mapear_pixels_para_ascii im false = inr s /\
     py_index ASCII_CHARS_PADRAO 0 = inr c /\
     String.length s = List.length (getdata im) /\
     forall k, (k < String.length s)%nat -> String.get k s = Some c) /\
  (Forall (eq (PInt 255)) (getdata im) ->
   exists s c,
     mapear_pixels_para_ascii im false = inr s /\
     py_index ASCII_CHARS_PADRAO (N - 1) = inr c /\
     String.length s = List.length (getdata im) /\
     forall k, (k < String.length s)%nat -> String.get k s = Some c).
Proof.
  assert (Huni : forall v c,
             0 <= v <= 255 -> glyph false v = c ->
             Forall (eq (PInt v)) (getdata im) ->
             exists s,
               mapear_pixels_para_ascii im false = inr s /\
               String.length s = List.length (getdata im) /\
               forall k, (k < String.length s)%nat -> String.get k s = Some c).
  { intros v c Hv Hg Hall.
    assert (Hd : getdata im = map PInt (repeat v (List.length (getdata im)))).
    { rewrite Forall_forall in Hall.
      induction (getdata im) as [|p ps IH]; [reflexivity|].
      simpl. rewrite <- (Hall p (or_introl eq_refl)). f_equal.
      apply IH. intros q Hq. apply Hall. now right. }
    exists (string_of_list_ascii
              (map (glyph false) (repeat v (List.length (getdata im))))).
    split; [|split].
    - apply mapear_luminance; [exact Hd|].
      apply Forall_forall. intros x Hx. apply repeat_spec in Hx. now subst.
    - now rewrite length_of_list, length_map, repeat_length.
    - intros k Hk. rewrite get_of_list.
      rewrite length_of_list, length_map, repeat_length in Hk.
      rewrite map_repeat, nth_error_repeat by assumption. now rewrite Hg. }
  split; intros Hall.
  - destruct (Huni 0 "$"%char ltac:(lia) eq_refl Hall) as [s Hs].
    exists s, "$"%char. tauto.
  - destruct (Huni 255 " "%char ltac:(lia) eq_refl Hall) as [s Hs].
    exists s, " "%char. tauto.
Qed.

Lemma C8_black_and_white_witness :
  (exists s c,
     mapear_pixels_para_ascii
       {| mode := "L"; size := (2, 1); getdata := [PInt 0; PInt 0] |} false
     = inr s /\
     py_index ASCII_CHARS_PADRAO 0 = inr c /\
     String.length s = 2%nat /\
     forall k, (k < String.length s)%nat -> String.get k s = Some c) /\
  (exists s c,
     mapear_pixels_para_ascii
       {| mode := "L"; size := (2, 1); getdata := [PInt 255; PInt 255] |} false
     = inr s /\
     py_index ASCII_CHARS_PADRAO (N - 1) = inr c /\
     String.length s = 2%nat /\
     forall k, (k < String.length s)%nat -> String.get k s = Some c).
Proof.
  split.
  - apply (proj1 (C8_black_and_white
                    {| mode := "L"; size := (2, 1);
                       getdata := [PInt 0; PInt 0] |})).
    repeat constructor.
  - apply (proj2 (C8_black_and_white
                    {| mode := "L"; size := (2, 1);
                       getdata := [PInt 255; PInt 255] |})).
    repeat constructor.
Defined.

(** ** C9: what reaches standard output *)

(** C9: whenever a run completes after opening the file, it prints the art
    once, so standard output holds the art followed by the line separator
    that [print] adds, and the art itself is empty or ends with a line
    separator: the output ends with a blank line.  In particular, for a 2x2
    image resized to width 2 (height [int(2 * 1.0 * 0.55) = 1]) whose
    grayscale values are all 255, the art is one line of two spaces (the
    last palette character) and a line separator. *)
Theorem C9_standard_output {pil : PIL} {laws : PIL_laws pil} path :
  (forall largura inv im,
      Image_open path = inr im ->
      outcome (gerar_arte_ascii path largura inv) = inr tt ->
      exists arte,
        printed (trace (gerar_arte_ascii path largura inv)) = [arte] /\
        stdout (trace (gerar_arte_ascii path largura inv)) = arte ++ nl /\
        (arte = "" \/ exists corpo, arte = corpo ++ nl)) /\
  (forall im r g,
      Image_open path = inr im ->
      size im = (2, 2) ->
      resize im (2, 1) = inr r ->
      convert r "L" = inr g ->
      Forall (eq (PInt 255)) (getdata g) ->
      nova_altura (size im) 2 = inr 1 /\
      outcome (gerar_arte_ascii path 2 false) = inr tt /\
      printed (trace (gerar_arte_ascii path 2 false)) = ["  " ++ nl] /\
      stdout (trace (gerar_arte_ascii path 2 false)) = "  " ++ nl ++ nl).
Proof.
  split.
  - intros largura inv im Ho Hok.
    destruct (gerar_success path largura inv im Ho Hok)
      as (h & r & g & vs & Hh & Hr & Hs & Hc & Hd & Hvs & Hl & Hw & Hh0).
    rewrite (gerar_run path largura inv im h r g vs) by assumption.
    eexists. split; [reflexivity|]. split.
    + unfold stdout. simpl. reflexivity.
    + set (ls := rows _ _ _). clearbody ls.
      induction ls as [|l ls IH]; [now left|]. right.
      rewrite join_lines_cons.
      destruct IH as [IH|[corpo IH]]; rewrite IH.
      * exists l. now rewrite append_nil_r.
      * exists (l ++ nl ++ corpo). now rewrite !append_assoc.
  - intros im r g Ho Hsz Hr Hc Hwhite.
    assert (Hh : nova_altura (size im) 2 = inr 1) by (now rewrite Hsz).
    destruct (resize_size _ _ _ Hr) as [Hs [_ [_ Hlen]]].
    destruct (convert_L _ _ Hc) as [_ [Hlg _]].
    rewrite Hs in Hlen. simpl in Hlen.
    assert (Hd : getdata g = map PInt [255; 255]).
    { destruct (getdata g) as [|p [|q [|x xs]]];
        rewrite <- Hlg in Hlen; simpl in Hlen; try lia.
      inversion Hwhite as [|? ? Hp Hrest]; subst.
      inversion Hrest as [|? ? Hq _]; subst. reflexivity. }
    rewrite (gerar_run path 2 false im 1 r g [255; 255]);
      try assumption; try reflexivity; try lia.
    + split; [exact Hh | repeat split].
    + repeat constructor; lia.
Qed.

Lemma C9_standard_output_witness :
  (exists arte,
      printed (trace (gerar_arte_ascii (pil := RefPIL.lib sample_dir)
                                       "branco.png" 2 true)) = [arte] /\
      stdout (trace (gerar_arte_ascii (pil := RefPIL.lib sample_dir)
                                      "branco.png" 2 true)) = arte ++ nl /\
      (arte = "" \/ exists corpo, arte = corpo ++ nl)) /\
  (nova_altura (size white_2x2) 2 = inr 1 /\
   outcome (gerar_arte_ascii (pil := RefPIL.lib sample_dir)
                             "branco.png" 2 false) = inr tt /\
   printed (trace (gerar_arte_ascii (pil := RefPIL.lib sample_dir)
                                    "branco.png" 2 false)) = ["  " ++ nl] /\
   stdout (trace (gerar_arte_ascii (pil := RefPIL.lib sample_dir)
                                   "branco.png" 2 false)) = "  " ++ nl ++ nl).
Proof.
  split.
  - apply (proj1 (C9_standard_output (pil := RefPIL.lib sample_dir) "branco.png")
                 2 true white_2x2).
    + reflexivity.
    + vm_compute. reflexivity.
  - apply (proj2 (C9_standard_output (pil := RefPIL.lib sample_dir) "branco.png")
                 white_2x2
                 {| mode := "RGB"; size := (2, 1);
                    getdata := [PTuple [255; 255; 255]; PTuple [255; 255; 255]] |}
                 {| mode := "L"; size := (2, 1);
                    getdata := [PInt 255; PInt 255] |}).
    + reflexivity.
    + reflexivity.
    + reflexivity.
    + reflexivity.
    + repeat constructor.
Defined.

(** ** C10: a height of zero *)

(** C10: for a valid 1x1 image and the positive width 1 the height computed
    on line 27 is [int(1 * 1.0 * 0.55) = 0]; the orchestrator calls [resize]
    with the size (1, 0) all the same, and the run then either raises,
    having printed nothing, or prints an empty art: a non-empty art is not
    guaranteed for every valid image and positive width. *)
Theorem C10_zero_height {pil : PIL} {laws : PIL_laws pil} path inv im :
  Image_open path = inr im ->
  size im = (1, 1) ->
  nova_altura (size im) 1 = inr 0 /\
  resized (trace (gerar_arte_ascii path 1 inv)) = [(im, (1, 0))] /\
  (outcome (gerar_arte_ascii path 1 inv) = inr tt ->
   printed (trace (gerar_arte_ascii path 1 inv)) = [""]) /\
  (forall e, outcome (gerar_arte_ascii path 1 inv) = inl e ->
             printed (trace (gerar_arte_ascii path 1 inv)) = []).
Proof.
  intros Ho Hsz.
  assert (Hh : nova_altura (size im) 1 = inr 0) by (now rewrite Hsz).
  split; [exact Hh|].
  split; [|split].
  - rewrite (gerar_opened _ _ _ _ Ho), Hh.
    destruct (resize im (1, 0)) as [e|r]; [reflexivity|].
    destruct (convert r "L") as [e|g]; [reflexivity|].
    destruct (let? s := mapear_pixels_para_ascii g inv in formatar s (width r));
      reflexivity.
  - intros Hok.
    destruct (gerar_success path 1 inv im Ho Hok)
      as (h & r & g & vs & Hh' & Hr & Hs & Hc & Hd & Hvs & Hl & Hw & Hh0).
    rewrite Hh in Hh'. injection Hh' as <-.
    rewrite (gerar_run path 1 inv im 0 r g vs) by assumption.
    reflexivity.
  - intros e. rewrite (gerar_opened _ _ _ _ Ho), Hh.
    destruct (resize im (1, 0)) as [e'|r]; [reflexivity|].
    destruct (convert r "L") as [e'|g]; [reflexivity|].
    destruct (let? s := mapear_pixels_para_ascii g inv in formatar s (width r));
      [reflexivity | discriminate].
Qed.

Lemma C10_zero_height_witness :
  nova_altura (size white_1x1) 1 = inr 0 /\
  resized (trace (gerar_arte_ascii (pil := RefPIL.lib sample_dir)
                                   "ponto.png" 1 false))
  = [(white_1x1, (1, 0))] /\
  (outcome (gerar_arte_ascii (pil := RefPIL.lib sample_dir)
                             "ponto.png" 1 false) = inr tt ->
   printed (trace (gerar_arte_ascii (pil := RefPIL.lib sample_dir)
                                    "ponto.png" 1 false)) = [""]) /\
  (forall e, outcome (gerar_arte_ascii (pil := RefPIL.lib sample_dir)
                                       "ponto.png" 1 false) = inl e ->
             printed (trace (gerar_arte_ascii (pil := RefPIL.lib sample_dir)
                                              "ponto.png" 1 false)) = []).
Proof.
  apply (C10_zero_height (pil := RefPIL.lib sample_dir)
                         "ponto.png" false white_1x1); reflexivity.
Defined.

(** * Further properties of the code *)

(** ** Checking a decidable fact on an interval *)

Lemma holds_from_spec (P : Z -> bool) (n : nat) :
  forall lo, holds_from P lo n = true ->
             forall v, lo <= v < lo + Z.of_nat n -> P v = true.
Proof.
  induction n as [|n IH]; intros lo H v Hv; [lia|].
  simpl in H. apply andb_true_iff in H. destruct H as [Hlo Hrest].
  destruct (Z.eq_dec v lo) as [->|Hne]; [exact Hlo|].
  apply (IH (lo + 1) Hrest). lia.
Qed.

Lemma forallb_range (P : Z -> bool) (lo hi : Z) :
  holds_from P lo (Z.to_nat (hi - lo)) = true ->
  forall v, lo <= v < hi -> P v = true.
Proof.
  intros H v Hv. apply (holds_from_spec P _ lo H). lia.
Qed.

(** ** The index outside the luminance range *)

(** On 17-bit signed values (every 16-bit pixel, signed or not) the index of line 45 is the quotient
    [v * 69 / 255] truncated toward zero, as [int()] does. *)
Lemma indice_window v :
  -65536 <= v < 65536 ->
  indice ASCII_CHARS_PADRAO (PInt v) = inr (Z.quot (v * 69) 255).
Proof.
  intros Hv.
  pose (P := fun v => match indice ASCII_CHARS_PADRAO (PInt v) with
                      | inr i => i =? Z.quot (v * 69) 255
                      | inl _ => false
                      end).
  assert (H : P v = true).
  { apply (forallb_range P (-65536) 65536); [vm_compute; reflexivity | lia]. }
  unfold P in H; clear P.
  destruct (indice ASCII_CHARS_PADRAO (PInt v)) as [e|i]; [discriminate|].
  apply Z.eqb_eq in H; now subst.
Qed.

Lemma paleta_length inv : len (paleta inv) = 70.
Proof. now destruct inv. Qed.

Lemma indice_paleta inv p : indice (paleta inv) p = indice ASCII_CHARS_PADRAO p.
Proof. destruct inv; [apply indice_reverse | reflexivity]. Qed.

(** ** Indexing the palette *)

Lemma py_index_out_of_range inv i :
  ~ (-70 <= i < 70) ->
  py_index (paleta inv) i = inl (Raise IndexError "string index out of range").
Proof.
  intros Hi. unfold py_index. rewrite paleta_length.
  destruct (Z.ltb_spec i 0).
  - destruct (Z.ltb_spec (i + 70) 0); [reflexivity|lia].
  - destruct (Z.ltb_spec i 0); [lia|].
    destruct (Z.leb_spec 70 i); [reflexivity|lia].
Qed.

Lemma py_index_from_end inv i :
  -70 <= i < 0 -> py_index (paleta inv) i = py_index (paleta inv) (i + 70).
Proof.
  intros Hi. unfold py_index. rewrite paleta_length. cbv zeta.
  assert (E1 : (i <? 0) = true) by (apply Z.ltb_lt; lia).
  assert (E2 : (i + 70 <? 0) = false) by (apply Z.ltb_ge; lia).
  now rewrite E1, !E2.
Qed.

Lemma py_index_in_range inv i :
  0 <= i < 70 ->
  exists c, py_index (paleta inv) i = inr c /\ palette_char c.
Proof.
  intros Hi. destruct inv; unfold paleta.
  - destruct (position_reversed i Hi) as [c [Hc [_ Hp]]].
    exists c. split; [exact Hc|]. now exists (69 - i).
  - destruct (position_forward i Hi) as [c [Hc Hp]].
    exists c. split; [exact Hc|]. now exists i.
Qed.

Lemma py_index_palette_char inv i c :
  py_index (paleta inv) i = inr c -> -70 <= i < 70 /\ palette_char c.
Proof.
  intros H.
  assert (Hr : -70 <= i < 70).
  { destruct (Z_le_dec (-70) i) as [Hlo|Hlo];
      [destruct (Z_lt_dec i 70) as [Hhi|Hhi]; [lia|]|];
      rewrite py_index_out_of_range in H by lia; discriminate. }
  split; [exact Hr|].
  destruct (Z_lt_dec i 0) as [Hneg|Hneg].
  - rewrite py_index_from_end in H by lia.
    destruct (py_index_in_range inv (i + 70)) as [d [Hd Hp]]; [lia|].
    rewrite Hd in H. now injection H as <-.
  - destruct (py_index_in_range inv i) as [d [Hd Hp]]; [lia|].
    rewrite Hd in H. now injection H as <-.
Qed.

Lemma quot_index_bounds v :
  (-262 <= v <= 258 -> -70 <= Z.quot (v * 69) 255 < 70) /\
  (~ (-262 <= v <= 258) -> ~ (-70 <= Z.quot (v * 69) 255 < 70)).
Proof.
  destruct (Z_le_dec 0 v) as [Hpos|Hneg].
  - rewrite Z.quot_div_nonneg by lia.
    split; intros H.
    + split; [apply Z.le_trans with 0; [lia | apply Z.div_pos; lia]|].
      apply Z.div_lt_upper_bound; lia.
    + intros [_ Hhi].
      assert (70 <= v * 69 / 255) by (apply Z.div_le_lower_bound; lia). lia.
  - replace (v * 69) with (- (- v * 69)) by lia.
    rewrite Z.quot_opp_l by lia. rewrite Z.quot_div_nonneg by lia.
    split; intros H.
    + assert (0 <= - v * 69 / 255) by (apply Z.div_pos; lia).
      assert (- v * 69 / 255 < 71) by (apply Z.div_lt_upper_bound; lia). lia.
    + intros [Hlo _].
      assert (71 <= - v * 69 / 255) by (apply Z.div_le_lower_bound; lia). lia.
Qed.

Lemma indice_any_flag inv v :
  -65536 <= v < 65536 ->
  indice (paleta inv) (PInt v) = inr (Z.quot (v * 69) 255).
Proof. intros Hv. rewrite indice_paleta. now apply indice_window. Qed.

Lemma caractere_rejected inv v :
  -65536 <= v < 65536 ->
  ~ (-262 <= v <= 258) ->
  caractere (paleta inv) (PInt v) =
  inl (Raise IndexError "string index out of range").
Proof.
  intros Hv Hr. unfold caractere.
  rewrite (indice_any_flag inv v Hv). simpl and_then.
  apply py_index_out_of_range. now apply (proj2 (quot_index_bounds v)).
Qed.

(** X1: for every integer pixel value of at most 17 bits, under either
    flag, the index computed on line 45 is [v * 69 / 255] truncated toward
    zero; the lookup of line 46 succeeds, on a palette character, exactly
    when [-262 <= v <= 258], and raises [IndexError] otherwise.  So the
    mapper is not confined to [0, 255]: three values above and 262 below are
    accepted silently. *)
Theorem mapper_accepts_exactly inv v :
  -65536 <= v < 65536 ->
  indice (paleta inv) (PInt v) = inr (Z.quot (v * 69) 255) /\
  (-262 <= v <= 258 ->
   exists c, caractere (paleta inv) (PInt v) = inr c /\ palette_char c) /\
  (~ (-262 <= v <= 258) ->
   caractere (paleta inv) (PInt v) =
   inl (Raise IndexError "string index out of range")).
Proof.
  intros Hv.
  pose proof (indice_any_flag inv v Hv) as Hi.
  split; [exact Hi|]. split; intros Hr.
  - unfold caractere. rewrite Hi. simpl and_then.
    pose proof (proj1 (quot_index_bounds v) Hr) as Hin.
    destruct (Z_lt_dec (Z.quot (v * 69) 255) 0) as [Hneg|Hneg].
    + rewrite py_index_from_end by lia. apply py_index_in_range. lia.
    + apply py_index_in_range. lia.
  - now apply caractere_rejected.
Qed.

Lemma mapper_accepts_exactly_witness :
  indice (paleta false) (PInt 259) = inr (Z.quot (259 * 69) 255) /\
  (-262 <= 259 <= 258 ->
   exists c, caractere (paleta false) (PInt 259) = inr c /\ palette_char c) /\
  (~ (-262 <= 259 <= 258) ->
   caractere (paleta false) (PInt 259) =
   inl (Raise IndexError "string index out of range")).
Proof.
  apply (mapper_accepts_exactly false 259). lia.
Defined.

(** X2: a negative pixel value is read from the light end of the palette.
    For [-262 <= v <= -1] let [k = floor(-v * 69 / 255)]; the mapper emits
    [palette[0]] when [k = 0] (v from -3 to -1) and [palette[N - k]]
    otherwise, so -4 gives the last (lightest) character, as 255 does. *)
Theorem mapper_negative_wraps inv v :
  -262 <= v <= -1 ->
  caractere (paleta inv) (PInt v) =
  py_index (paleta inv)
           (if - v * 69 / 255 =? 0 then 0 else N - (- v * 69 / 255)).
Proof.
  intros Hv.
  pose proof (indice_any_flag inv v ltac:(lia)) as Hi.
  unfold caractere. rewrite Hi. simpl and_then.
  replace (v * 69) with (- (- v * 69)) by lia.
  rewrite Z.quot_opp_l by lia. rewrite Z.quot_div_nonneg by lia.
  assert (0 <= - v * 69 / 255) by (apply Z.div_pos; lia).
  assert (- v * 69 / 255 < 71) by (apply Z.div_lt_upper_bound; lia).
  destruct (Z.eqb_spec (- v * 69 / 255) 0) as [->|Hk]; [reflexivity|].
  rewrite py_index_from_end by lia.
  change N with 70. f_equal. lia.
Qed.

Lemma mapper_negative_wraps_witness :
  caractere (paleta false) (PInt (-4)) = inr " "%char.
Proof.
  exact (mapper_negative_wraps false (-4) ltac:(lia)).
Defined.

(** ** The mapper on arbitrary buffers *)

Lemma mapear_loop_prefix cs (f : Z -> ascii) vs rest :
  forall acc,
    Forall (fun v => caractere cs (PInt v) = inr (f v)) vs ->
    mapear_loop cs (map PInt vs ++ rest)%list acc =
    mapear_loop cs rest (acc ++ map f vs)%list.
Proof.
  induction vs as [|v vs IH]; intros acc H; simpl.
  - now rewrite app_nil_r.
  - inversion H as [|? ? Hv Hvs]; subst.
    rewrite Hv. simpl. rewrite IH by assumption.
    now rewrite <- app_assoc.
Qed.

(** X3: a multi-band pixel makes the mapper raise [TypeError], whatever
    came before it: on a buffer that holds luminance values and then a
    tuple, [mapear_pixels_para_ascii] returns no text at all (the characters
    built so far are lost). *)
Theorem mapper_rejects_tuple im inv vs bands rest :
  getdata im = (map PInt vs ++ PTuple bands :: rest)%list ->
  Forall (fun v => 0 <= v <= 255) vs ->
  mapear_pixels_para_ascii im inv =
  inl (Raise TypeError "unsupported operand type(s) for /: 'tuple' and 'int'").
Proof.
  intros Hd Hvs. unfold mapear_pixels_para_ascii.
  rewrite Hd, (mapear_loop_prefix _ (glyph inv)).
  - reflexivity.
  - eapply Forall_impl; [|exact Hvs].
    intros v Hv. now apply caractere_luminance.
Qed.

Lemma mapper_rejects_tuple_witness :
  mapear_pixels_para_ascii
    {| mode := "RGB"; size := (2, 1);
       getdata := [PInt 7; PTuple [1; 2; 3]] |} true =
  inl (Raise TypeError "unsupported operand type(s) for /: 'tuple' and 'int'").
Proof.
  apply (mapper_rejects_tuple
           {| mode := "RGB"; size := (2, 1);
              getdata := [PInt 7; PTuple [1; 2; 3]] |} true [7] [1; 2; 3] []).
  - reflexivity.
  - repeat constructor; lia.
Defined.

Lemma mapear_loop_returns cs ps :
  forall acc out,
    mapear_loop cs ps acc = inr out ->
    exists emitted,
      out = (acc ++ emitted)%list /\
      Forall2 (fun p c => caractere cs p = inr c) ps emitted.
Proof.
  induction ps as [|p ps IH]; intros acc out H; simpl in H.
  - injection H as <-. exists []. split; [now rewrite app_nil_r | constructor].
  - destruct (caractere cs p) as [e|c] eqn:Hc; [discriminate|].
    simpl in H. destruct (IH _ _ H) as [emitted [Hout Hall]].
    exists (c :: emitted). split.
    + now rewrite Hout, <- app_assoc.
    + now constructor.
Qed.

(** X4: whenever the mapper returns a text, for any image and flag, the
    text has exactly one character per pixel, every character is a palette
    character and the text holds no line separator; no pixel was a tuple
    (each was an int or a float), and every int pixel of at most 17 bits was
    in [-262, 258]. *)
Theorem mapper_returns im inv s :
  mapear_pixels_para_ascii im inv = inr s ->
  String.length s = List.length (getdata im) /\
  (forall k c, String.get k s = Some c -> palette_char c) /\
  no_newline s /\
  (forall p, In p (getdata im) ->
             (forall bands, p <> PTuple bands) /\
             (forall v, p = PInt v ->
                        -65536 <= v < 65536 -> -262 <= v <= 258)).
Proof.
  unfold mapear_pixels_para_ascii. intros H.
  destruct (mapear_loop (paleta inv) (getdata im) []) as [e|out] eqn:Hloop;
    [discriminate|].
  simpl in H. injection H as <-.
  destruct (mapear_loop_returns _ _ _ _ Hloop) as [emitted [-> Hall]].
  simpl app.
  assert (Hpal : forall k c, String.get k (string_of_list_ascii emitted) = Some c ->
                             palette_char c).
  { intros k c Hk. rewrite get_of_list in Hk. apply nth_error_In in Hk.
    clear Hloop. induction Hall as [|p d ps ds Hpd _ IH]; [contradiction|].
    destruct Hk as [->|Hk]; [|now apply IH].
    unfold caractere in Hpd.
    destruct (indice (paleta inv) p) as [e|i]; [discriminate|].
    simpl in Hpd. now apply py_index_palette_char in Hpd. }
  split; [|split; [exact Hpal|split]].
  - rewrite length_of_list. symmetry. exact (Forall2_length Hall).
  - intros k Hk. destruct (Hpal k _ Hk) as [i Hi]. discriminate Hi.
  - intros p Hp. clear Hloop Hpal.
    induction Hall as [|q d ps ds Hqd _ IH]; [contradiction|].
    destruct Hp as [->|Hp]; [|now apply IH].
    split.
    + intros bands ->. discriminate Hqd.
    + intros v -> Hv.
      destruct (Z_le_dec (-262) v) as [Hlo|Hlo];
        [destruct (Z_le_dec v 258) as [Hhi|Hhi]; [lia|]|];
        rewrite (caractere_rejected inv v Hv) in Hqd by lia; discriminate.
Qed.


Lemma mapper_returns_witness :
  String.length "$n " = 3%nat /\
  (forall k c, String.get k "$n " = Some c -> palette_char c) /\
  no_newline "$n " /\
  (forall p, In p [PInt (-1);
                   PFloat (S754_finite false 8972014882652160 (-46));
                   PInt 258] ->
             (forall bands, p <> PTuple bands) /\
             (forall v, p = PInt v ->
                        -65536 <= v < 65536 -> -262 <= v <= 258)).
Proof.
  apply (mapper_returns
           {| mode := "F"; size := (3, 1);
              getdata := [PInt (-1);
                          PFloat (S754_finite false 8972014882652160 (-46));
                          PInt 258] |}
           false "$n ").
  reflexivity.
Defined.

(** X5: the grayscale conversion and the mapper compose.  For a library
    that meets its contract, the mapper never raises on an image returned
    by [converter_para_escala_de_cinza]: it returns one palette character
    per pixel of the image that was converted. *)
Theorem converter_then_mapper {pil : PIL} {laws : PIL_laws pil} im g inv :
  outcome (converter_para_escala_de_cinza im) = inr g ->
  trace (converter_para_escala_de_cinza im) = [Convert im "L"] /\
  size g = size im /\
  exists s,
    mapear_pixels_para_ascii g inv = inr s /\
    String.length s = List.length (getdata im) /\
    forall k c, String.get k s = Some c -> palette_char c.
Proof.
  unfold converter_para_escala_de_cinza, call, outcome, trace. simpl.
  intros Hc.
  destruct (convert_L _ _ Hc) as [Hs [Hlg [vs [Hd Hvs]]]].
  split; [reflexivity|]. split; [exact Hs|].
  assert (Hm := mapear_luminance g inv vs Hd Hvs).
  exists (string_of_list_ascii (map (glyph inv) vs)).
  split; [exact Hm|].
  split.
  - rewrite length_of_list, length_map, <- Hlg, Hd. now rewrite length_map.
  - intros k c Hk. rewrite get_of_list in Hk. apply nth_error_In in Hk.
    apply in_map_iff in Hk. destruct Hk as [v [<- Hin]].
    rewrite Forall_forall in Hvs.
    destruct (caractere_luminance inv v (Hvs v Hin)) as [_ Hc'].
    now apply py_index_palette_char in Hc'.
Qed.

Lemma converter_then_mapper_witness :
  trace (converter_para_escala_de_cinza (pil := RefPIL.lib sample_dir) white_2x2)
  = [Convert white_2x2 "L"] /\
  size {| mode := "L"; size := (2, 2);
          getdata := [PInt 255; PInt 255; PInt 255; PInt 255] |} = size white_2x2 /\
  exists s,
    mapear_pixels_para_ascii
      {| mode := "L"; size := (2, 2);
         getdata := [PInt 255; PInt 255; PInt 255; PInt 255] |} true = inr s /\
    String.length s = List.length (getdata white_2x2) /\
    forall k c, String.get k s = Some c -> palette_char c.
Proof.
  apply (converter_then_mapper (pil := RefPIL.lib sample_dir) white_2x2
           {| mode := "L"; size := (2, 2);
              getdata := [PInt 255; PInt 255; PInt 255; PInt 255] |} true).
  reflexivity.
Defined.

(** ** How the luminance range is shared among the characters *)

(** X6: the quantisation of line 45 uses every palette character, and the
    last one only for full white: each index from 0 to N - 1 is the index of
    some luminance value in [0, 255]; the index N - 1 (the space, or [$]
    with the flag set) is reached by 255 alone, and every lower index by an
    interval of three or four consecutive values. *)
Theorem every_character_is_used inv :
  (forall i, 0 <= i <= N - 1 ->
             exists v, 0 <= v <= 255 /\ indice (paleta inv) (PInt v) = inr i) /\
  (forall v, 0 <= v <= 255 ->
             (indice (paleta inv) (PInt v) = inr (N - 1) <-> v = 255)) /\
  (forall i, 0 <= i < N - 1 ->
             exists lo n,
               (n = 3 \/ n = 4) /\
               forall v, 0 <= v <= 255 ->
                         (indice (paleta inv) (PInt v) = inr i <->
                          lo <= v < lo + n)).
Proof.
  change (N - 1) with 69.
  split; [|split].
  - intros i Hi. exists ((i * 255 + 68) / 69).
    assert (Hlo : 0 <= (i * 255 + 68) / 69) by (apply Z.div_pos; lia).
    assert (Hhi : (i * 255 + 68) / 69 < 256)
      by (apply Z.div_lt_upper_bound; lia).
    split; [lia|].
    rewrite indice_paleta, indice_luminance by lia. f_equal.
    pose (P := fun i => ((i * 255 + 68) / 69) * 69 / 255 =? i).
    assert (H : P i = true) by by_table P 70%nat.
    unfold P in H. now apply Z.eqb_eq in H.
  - intros v Hv. rewrite indice_paleta, indice_luminance by lia. split.
    + intros H. injection H as H.
      destruct (Z.eq_dec v 255) as [|Hne]; [assumption|].
      assert (v * 69 / 255 < 69) by (apply Z.div_lt_upper_bound; lia). lia.
    + intros ->. reflexivity.
  - intros i Hi.
    exists ((i * 255 + 68) / 69),
           (((i + 1) * 255 + 68) / 69 - (i * 255 + 68) / 69).
    split.
    + pose (P := fun i => let n := ((i + 1) * 255 + 68) / 69 - (i * 255 + 68) / 69 in
                          (n =? 3) || (n =? 4)).
      assert (H : P i = true) by by_table P 69%nat.
      unfold P in H. cbv zeta in H. apply orb_true_iff in H.
      destruct H as [H|H]; apply Z.eqb_eq in H; [now left | now right].
    + intros v Hv. rewrite indice_paleta, indice_luminance by lia.
      split.
      * intros H. injection H as H.
        Z.to_euclidean_division_equations. lia.
      * intros H. f_equal.
        Z.to_euclidean_division_equations. lia.
Qed.

Lemma every_character_is_used_witness :
  exists v, 0 <= v <= 255 /\ indice (paleta false) (PInt v) = inr 42.
Proof.
  apply (proj1 (every_character_is_used false) 42). change N with 70. lia.
Defined.

(** ** The inverted flag on uniform buffers *)

(** X7: with the flag set, light pixels become dark characters, as the help
    text of the option says: on a buffer whose every luminance is 255 the
    mapper emits [palette[0]] (the densest character) at every position, and
    on a buffer whose every luminance is 0 it emits [palette[N - 1]]
    (the space). *)
Theorem inverted_black_and_white im :
  (Forall (eq (PInt 255)) (getdata im) ->
   exists s c,
     mapear_pixels_para_ascii im true = inr s /\
     py_index ASCII_CHARS_PADRAO 0 = inr c /\
     String.length s = List.length (getdata im) /\
     forall k, (k < String.length s)%nat -> String.get k s = Some c) /\
  (Forall (eq (PInt 0)) (getdata im) ->
   exists s c,
     mapear_pixels_para_ascii im true = inr s /\
     py_index ASCII_CHARS_PADRAO (N - 1) = inr c /\
     String.length s = List.length (getdata im) /\
     forall k, (k < String.length s)%nat -> String.get k s = Some c).
Proof.
  assert (Huni : forall v c,
             0 <= v <= 255 -> glyph true v = c ->
             Forall (eq (PInt v)) (getdata im) ->
             exists s,
               mapear_pixels_para_ascii im true = inr s /\
               String.length s = List.length (getdata im) /\
               forall k, (k < String.length s)%nat -> String.get k s = Some c).
  { intros v c Hv Hg Hall.
    assert (Hd : getdata im = map PInt (repeat v (List.length (getdata im)))).
    { rewrite Forall_forall in Hall.
      induction (getdata im) as [|p ps IH]; [reflexivity|].
      simpl. rewrite <- (Hall p (or_introl eq_refl)). f_equal.
      apply IH. intros q Hq. apply Hall. now right. }
    exists (string_of_list_ascii
              (map (glyph true) (repeat v (List.length (getdata im))))).
    split; [|split].
    - apply mapear_luminance; [exact Hd|].
      apply Forall_forall. intros x Hx. apply repeat_spec in Hx. now subst.
    - now rewrite length_of_list, length_map, repeat_length.
    - intros k Hk. rewrite get_of_list.
      rewrite length_of_list, length_map, repeat_length in Hk.
      rewrite map_repeat, nth_error_repeat by assumption. now rewrite Hg. }
  split; intros Hall.
  - destruct (Huni 255 "$"%char ltac:(lia) eq_refl Hall) as [s Hs].
    exists s, "$"%char. tauto.
  - destruct (Huni 0 " "%char ltac:(lia) eq_refl Hall) as [s Hs].
    exists s, " "%char. tauto.
Qed.

Lemma inverted_black_and_white_witness :
  exists s c,
    mapear_pixels_para_ascii
      {| mode := "L"; size := (2, 1); getdata := [PInt 255; PInt 255] |} true
    = inr s /\
    py_index ASCII_CHARS_PADRAO 0 = inr c /\
    String.length s = 2%nat /\
    forall k, (k < String.length s)%nat -> String.get k s = Some c.
Proof.
  apply (proj1 (inverted_black_and_white
                  {| mode := "L"; size := (2, 1);
                     getdata := [PInt 255; PInt 255] |})).
  repeat constructor.
Defined.

(** ** The line formatter on any text *)

Lemma substring_length_min (s : string) :
  forall n m, String.length (String.substring n m s) =
              Nat.min m (String.length s - n).
Proof.
  induction s as [|c s IH]; intros [|n] [|m]; simpl; try reflexivity.
  - now rewrite (IH 0%nat m), Nat.sub_0_r.
  - apply IH.
  - apply IH.
Qed.

Lemma substring_beyond (s : string) :
  forall n m m',
    (String.length s <= n + m)%nat -> (String.length s <= n + m')%nat ->
    String.substring n m s = String.substring n m' s.
Proof.
  induction s as [|c s IH]; intros [|n] [|m] [|m'] H H'; simpl in *;
    try reflexivity; try lia;
    solve [f_equal; apply (IH 0%nat); lia | apply IH; lia].
Qed.

Lemma substring_split (s : string) :
  forall n m1 m2,
    String.substring n (m1 + m2) s =
    String.substring n m1 s ++ String.substring (n + m1) m2 s.
Proof.
  induction s as [|c s IH]; intros [|n] [|m1] m2; simpl;
    try (now destruct m2).
  - f_equal. apply (IH 0%nat m1 m2).
  - apply (IH n 0%nat m2).
  - apply (IH n (S m1) m2).
Qed.

Lemma substring_all (s : string) :
  forall m, (String.length s <= m)%nat -> String.substring 0 m s = s.
Proof.
  induction s as [|c s IH]; intros [|m] H; simpl in *; try reflexivity; try lia.
  f_equal. apply IH. lia.
Qed.

Lemma substring_zero (s : string) : forall n, String.substring n 0 s = "".
Proof.
  induction s as [|c s IH]; intros [|n]; simpl; try reflexivity. apply IH.
Qed.

Lemma concat_cons (l : string) (ls : list string) :
  String.concat "" (l :: ls) = l ++ String.concat "" ls.
Proof.
  destruct ls as [|l' ls]; simpl; [now rewrite append_nil_r | reflexivity].
Qed.

Lemma concat_rows s w :
  forall n a,
    String.concat "" (map (fun k => String.substring (k * w) w s) (seq a n)) =
    String.substring (a * w) (n * w) s.
Proof.
  induction n as [|n IH]; intros a.
  - simpl. now rewrite substring_zero.
  - cbn [seq map]. rewrite concat_cons, IH.
    replace (S n * w)%nat with (w + n * w)%nat by lia.
    rewrite substring_split. do 2 f_equal. lia.
Qed.

Lemma py_slice_row s i w :
  0 <= i < len s -> 0 < w ->
  py_slice s i (i + w) = String.substring (Z.to_nat i) (Z.to_nat w) s.
Proof.
  intros Hi Hw. unfold py_slice. cbv zeta.
  assert (E1 : (i <? 0) = false) by (apply Z.ltb_ge; lia).
  assert (E2 : (i + w <? 0) = false) by (apply Z.ltb_ge; lia).
  rewrite E1, E2. rewrite (Z.min_l i) by lia.
  assert (E3 : (i <? Z.min (i + w) (len s)) = true) by (apply Z.ltb_lt; lia).
  rewrite E3.
  destruct (Z_le_dec (i + w) (len s)) as [Hfit|Hover].
  - rewrite Z.min_l by lia. do 2 f_equal. lia.
  - rewrite Z.min_r by lia. unfold len in *. apply substring_beyond; lia.
Qed.

Lemma py_range_rows n w :
  0 < w -> 0 <= n ->
  py_range 0 n w =
  inr (map (fun k => 0 + Z.of_nat k * w) (seq 0 (Z.to_nat (chunk_count n w)))).
Proof.
  intros Hw Hn. unfold py_range, chunk_count.
  assert (E1 : (w =? 0) = false) by (apply Z.eqb_neq; lia).
  assert (E2 : (0 <? w) = true) by (apply Z.ltb_lt; lia).
  rewrite E1, E2. do 3 f_equal.
  destruct (Z.ltb_spec 0 n) as [Hp|Hp].
  - replace (n + w - 1) with (n - 0 - 1 + 1 * w) by lia.
    now rewrite Z.div_add by lia.
  - replace n with 0 by lia. simpl. now rewrite Z.div_small by lia.
Qed.

Lemma formatar_loop_any s w n :
  0 < w ->
  forall a acc,
    (n = 0%nat \/ Z.of_nat (a + n - 1) * w < len s) ->
    formatar_loop s w (map (fun k => 0 + Z.of_nat k * w) (seq a n)) acc =
    acc ++ join_lines (map (fun k => String.substring (k * Z.to_nat w) (Z.to_nat w) s)
                           (seq a n)).
Proof.
  intros Hw. induction n as [|n IH]; intros a acc Hl.
  - simpl. now rewrite append_nil_r.
  - cbn [seq map formatar_loop].
    rewrite IH by (destruct n; [now left | right; nia]).
    rewrite join_lines_cons, py_slice_row by nia.
    replace (Z.to_nat (0 + Z.of_nat a * w)) with (a * Z.to_nat w)%nat by nia.
    now rewrite !append_assoc.
Qed.

Lemma join_lines_length ls :
  String.length (join_lines ls) =
  (String.length (String.concat "" ls) + List.length ls)%nat.
Proof.
  induction ls as [|l ls IH]; [reflexivity|].
  rewrite join_lines_cons, concat_cons, !length_append, IH. simpl. lia.
Qed.

Lemma chunk_count_bounds n w :
  0 < w -> 0 <= n ->
  0 <= chunk_count n w /\
  n <= chunk_count n w * w /\
  (0 < n -> (chunk_count n w - 1) * w < n).
Proof.
  intros Hw Hn. unfold chunk_count.
  Z.to_euclidean_division_equations. nia.
Qed.

(** X8: the formatter of lines 71-75 on any text and any width above 0.
    It never raises and loses no character: the art is the rows
    [s[0:w], s[w:2w], ...], each followed by a line separator; there are
    [ceil(len(s) / w)] of them, their concatenation is the text itself, none
    is empty, every row but the last has exactly [w] characters and the last
    has the remainder; the art has [len(s) + ceil(len(s) / w)] characters. *)
Theorem formatar_any_text s w :
  0 < w ->
  exists ls,
    formatar s w = inr (join_lines ls) /\
    String.concat "" ls = s /\
    Z.of_nat (List.length ls) = chunk_count (len s) w /\
    (forall k l, nth_error ls k = Some l ->
                 len l = Z.min w (len s - Z.of_nat k * w) /\ 0 < len l) /\
    len (join_lines ls) = len s + chunk_count (len s) w.
Proof.
  intros Hw.
  assert (Hn : 0 <= len s) by (unfold len; lia).
  destruct (chunk_count_bounds (len s) w Hw Hn) as [Hc0 [Hcover Hlast]].
  set (n := Z.to_nat (chunk_count (len s) w)) in *.
  exists (rows s (Z.to_nat w) n).
  assert (Hcat : String.concat "" (rows s (Z.to_nat w) n) = s).
  { unfold rows. rewrite concat_rows. simpl. apply substring_all.
    unfold len in *. nia. }
  split; [|split; [exact Hcat|split; [|split]]].
  - unfold formatar. rewrite py_range_rows by assumption. simpl and_then.
    fold n. rewrite formatar_loop_any; [reflexivity|assumption|].
    destruct (Z.eq_dec (len s) 0) as [Hz|Hz].
    + left. unfold n, chunk_count. rewrite Hz. simpl.
      rewrite Z.div_small by lia. reflexivity.
    + right. assert (0 < len s) by lia. specialize (Hlast H). nia.
  - rewrite rows_length. unfold n. lia.
  - intros k l Hk. unfold rows in Hk.
    assert (Hkn : (k < n)%nat).
    { assert (Hlt : (k < List.length
                            (map (fun k => String.substring (k * Z.to_nat w) (Z.to_nat w) s)
                                 (seq 0 n)))%nat)
        by (apply nth_error_Some; rewrite Hk; discriminate).
      now rewrite length_map, length_seq in Hlt. }
    rewrite nth_error_map, nth_error_seq in Hk.
    destruct (Nat.ltb_spec k n) as [_|]; [|lia].
    simpl in Hk. injection Hk as <-.
    assert (Hpos : 0 < len s).
    { destruct (Z.eq_dec (len s) 0) as [Hz|Hz]; [|lia].
      exfalso. unfold n, chunk_count in Hkn. rewrite Hz in Hkn. simpl in Hkn.
      rewrite Z.div_small in Hkn by lia. simpl in Hkn. lia. }
    specialize (Hlast Hpos). unfold n in Hkn.
    assert (Hk' : Z.of_nat k <= chunk_count (len s) w - 1) by lia.
    assert (Hstart : Z.of_nat k * w < len s) by nia.
    assert (Hkw : Z.of_nat (k * Z.to_nat w) = Z.of_nat k * w)
      by (rewrite Nat2Z.inj_mul, Z2Nat.id; lia).
    clear Hcat. unfold len in *. rewrite substring_length_min.
    set (kw := (k * Z.to_nat w)%nat) in *. split; lia.
  - unfold len at 1. rewrite join_lines_length, Hcat, rows_length.
    rewrite Nat2Z.inj_add. unfold n. rewrite Z2Nat.id by exact Hc0. reflexivity.
Qed.

Lemma formatar_any_text_witness :
  exists ls,
    formatar "abcdefg" 3 = inr (join_lines ls) /\
    String.concat "" ls = "abcdefg" /\
    Z.of_nat (List.length ls) = chunk_count (len "abcdefg") 3 /\
    (forall k l, nth_error ls k = Some l ->
                 len l = Z.min 3 (len "abcdefg" - Z.of_nat k * 3) /\ 0 < len l) /\
    len (join_lines ls) = len "abcdefg" + chunk_count (len "abcdefg") 3.
Proof.
  apply (formatar_any_text "abcdefg" 3). lia.
Defined.

(** X9: the formatter on a width that is not positive.  A width of 0 makes
    [range] raise [ValueError] for every text, the empty one included; a
    negative width makes the loop run zero times, so the art is empty and
    the whole text is dropped. *)
Theorem formatar_nonpositive_width s w :
  w <= 0 ->
  formatar s w =
  if w =? 0 then inl (Raise ValueError "range() arg 3 must not be zero")
  else inr "".
Proof.
  intros Hw. unfold formatar, py_range.
  destruct (Z.eqb_spec w 0) as [->|Hne]; [reflexivity|].
  assert (E1 : (0 <? w) = false) by (apply Z.ltb_ge; lia).
  assert (E2 : (len s <? 0) = false) by (apply Z.ltb_ge; unfold len; lia).
  rewrite E1, E2. reflexivity.
Qed.

Lemma formatar_nonpositive_width_witness :
  formatar "abc" (-2) = inr "" /\
  formatar "" 0 = inl (Raise ValueError "range() arg 3 must not be zero").
Proof.
  split.
  - apply (formatar_nonpositive_width "abc" (-2)). lia.
  - apply (formatar_nonpositive_width "" 0). lia.
Defined.

(** ** The orchestrator on any library *)

(** The run when the file cannot be opened. *)
Lemma gerar_not_opened {pil : PIL} path largura inv e :
  Image_open path = inl e ->
  gerar_arte_ascii path largura inv =
  if is_FileNotFoundError e then ([Open path; Print (msg_nao_encontrado path)], inr tt)
  else if is_Exception e then ([Open path; Print (msg_erro_abrir e)], inr tt)
  else ([Open path], inl e).
Proof.
  intros Ho. unfold gerar_arte_ascii, attempt, call, bind. simpl. rewrite Ho.
  destruct (is_FileNotFoundError e); [reflexivity|].
  destruct (is_Exception e); reflexivity.
Qed.

(** X10: output is all or nothing.  For every library, path, width and
    flag: a run that raises has printed nothing (no partial art, no
    message), and a run that returns has printed exactly one text, either
    the whole art or one error message. *)
Theorem output_all_or_nothing {pil : PIL} path largura inv :
  (forall e, outcome (gerar_arte_ascii path largura inv) = inl e ->
             printed (trace (gerar_arte_ascii path largura inv)) = [] /\
             stdout (trace (gerar_arte_ascii path largura inv)) = "") /\
  (outcome (gerar_arte_ascii path largura inv) = inr tt ->
   exists text,
     printed (trace (gerar_arte_ascii path largura inv)) = [text] /\
     stdout (trace (gerar_arte_ascii path largura inv)) = text ++ nl).
Proof.
  destruct (Image_open path) as [e|im] eqn:Ho.
  - rewrite (gerar_not_opened _ _ _ _ Ho).
    destruct (is_FileNotFoundError e); [|destruct (is_Exception e)];
      (split; [intros e' He'; try discriminate He'; split; reflexivity
              | intros Hok; try discriminate Hok; eexists; split; reflexivity]).
  - rewrite (gerar_opened _ _ _ _ Ho).
    destruct (nova_altura (size im) largura) as [e|h];
      [|destruct (resize im (largura, h)) as [e|r];
        [|destruct (convert r "L") as [e|g];
          [|destruct (let? s := mapear_pixels_para_ascii g inv in
                      formatar s (width r)) as [e|arte]]]];
      (split; [intros e' He'; try discriminate He'; split; reflexivity
              | intros Hok; try discriminate Hok; eexists; split; reflexivity]).
Qed.

(** X11: an exception of [Image.open] that is not an [Exception]
    ([KeyboardInterrupt]) is not caught by the [try] of lines 52-59: it
    reaches the caller, nothing is printed and [resize] is not called. *)
Theorem open_interrupt_propagates {pil : PIL} path largura inv e :
  Image_open path = inl e ->
  is_Exception e = false ->
  gerar_arte_ascii path largura inv = ([Open path], inl e).
Proof.
  intros Ho He. rewrite (gerar_not_opened _ _ _ _ Ho), He.
  unfold is_FileNotFoundError. unfold is_Exception in He.
  destruct (exn_cls e); try discriminate He. reflexivity.
Qed.

Lemma open_interrupt_propagates_witness :
  gerar_arte_ascii
    (pil := {| Image_open := fun _ => inl (Raise KeyboardInterrupt "");
               resize := RefPIL.nearest; convert := RefPIL.to_mode |})
    "a.png" 80 false
  = ([Open "a.png"], inl (Raise KeyboardInterrupt "")).
Proof.
  apply (open_interrupt_propagates
           (pil := {| Image_open := fun _ => inl (Raise KeyboardInterrupt "");
                      resize := RefPIL.nearest; convert := RefPIL.to_mode |})
           "a.png" 80 false (Raise KeyboardInterrupt "")); reflexivity.
Defined.

(** X12: an opened image whose width is 0 makes line 24 divide by zero.
    The run raises [ZeroDivisionError] (or [OverflowError], if the height
    does not fit a float) before [resize] is called, whatever the target
    width, and nothing is printed: this exception is not caught. *)
Theorem zero_width_image_raises {pil : PIL} path largura inv im altura :
  Image_open path = inr im ->
  size im = (0, altura) ->
  gerar_arte_ascii path largura inv =
  ([Open path],
   inl (match PyFloat.of_int altura with
        | inl overflow => overflow
        | inr _ => Raise ZeroDivisionError "float division by zero"
        end)).
Proof.
  intros Ho Hs. rewrite (gerar_opened _ _ _ _ Ho), Hs.
  unfold nova_altura. change (PyFloat.of_int 0) with (@inr exn _ (S754_zero false)).
  simpl and_then.
  destruct (PyFloat.of_int altura) as [e|a]; reflexivity.
Qed.

Lemma zero_width_image_raises_witness :
  gerar_arte_ascii
    (pil := RefPIL.lib [("vazio.png",
                         RefPIL.Decodable {| mode := "L"; size := (0, 5);
                                             getdata := [] |})])
    "vazio.png" 80 false
  = ([Open "vazio.png"], inl (Raise ZeroDivisionError "float division by zero")).
Proof.
  apply (zero_width_image_raises
           (pil := RefPIL.lib [("vazio.png",
                                RefPIL.Decodable {| mode := "L"; size := (0, 5);
                                                    getdata := [] |})])
           "vazio.png" 80 false
           {| mode := "L"; size := (0, 5); getdata := [] |} 5); reflexivity.
Defined.

(** X13: one pass, no retry.  Every run opens the given path exactly once;
    it calls [resize] at most once, on the opened image with the requested
    width unchanged, and [convert] at most once, on the image [resize]
    returned and with mode L; the calls come in the order open, resize,
    convert, and a print comes last. *)
Theorem single_pass {pil : PIL} path largura inv :
  opened (trace (gerar_arte_ascii path largura inv)) = [path] /\
  exists rest,
    trace (gerar_arte_ascii path largura inv) = Open path :: rest /\
    (rest = [] \/
     (exists text, rest = [Print text]) \/
     (exists im h,
         Image_open path = inr im /\
         nova_altura (size im) largura = inr h /\
         (rest = [Resize im (largura, h)] \/
          exists r,
            resize im (largura, h) = inr r /\
            (rest = [Resize im (largura, h); Convert r "L"] \/
             exists text,
               rest = [Resize im (largura, h); Convert r "L"; Print text])))).
Proof.
  destruct (Image_open path) as [e|im] eqn:Ho.
  - rewrite (gerar_not_opened _ _ _ _ Ho).
    destruct (is_FileNotFoundError e); [|destruct (is_Exception e)];
      (split; [reflexivity|]); eexists; (split; [reflexivity|]); eauto.
  - rewrite (gerar_opened _ _ _ _ Ho).
    destruct (nova_altura (size im) largura) as [e|h] eqn:Hh.
    { split; [reflexivity|]. eexists; split; [reflexivity|]. now left. }
    destruct (resize im (largura, h)) as [e|r] eqn:Hr.
    { split; [reflexivity|]. eexists; split; [reflexivity|].
      right; right. exists im, h. split; [reflexivity|]. split; [exact Hh|]. now left. }
    destruct (convert r "L") as [e|g].
    { split; [reflexivity|]. eexists; split; [reflexivity|].
      right; right. exists im, h. split; [reflexivity|]. split; [exact Hh|].
      right. exists r. split; [exact Hr|]. now left. }
    destruct (let? s := mapear_pixels_para_ascii g inv in formatar s (width r))
      as [e|arte].
    { split; [reflexivity|]. eexists; split; [reflexivity|].
      right; right. exists im, h. split; [reflexivity|]. split; [exact Hh|].
      right. exists r. split; [exact Hr|]. now left. }
    split; [reflexivity|]. eexists; split; [reflexivity|].
    right; right. exists im, h. split; [reflexivity|]. split; [exact Hh|].
    right. exists r. split; [exact Hr|]. right. now exists arte.
Qed.

Lemma output_all_or_nothing_witness :
  (forall e, outcome (gerar_arte_ascii (pil := RefPIL.lib sample_dir)
                                       "ponto.png" 1 false) = inl e ->
             printed (trace (gerar_arte_ascii (pil := RefPIL.lib sample_dir)
                                              "ponto.png" 1 false)) = [] /\
             stdout (trace (gerar_arte_ascii (pil := RefPIL.lib sample_dir)
                                             "ponto.png" 1 false)) = "") /\
  (outcome (gerar_arte_ascii (pil := RefPIL.lib sample_dir)
                             "ponto.png" 1 false) = inr tt ->
   exists text,
     printed (trace (gerar_arte_ascii (pil := RefPIL.lib sample_dir)
                                      "ponto.png" 1 false)) = [text] /\
     stdout (trace (gerar_arte_ascii (pil := RefPIL.lib sample_dir)
                                     "ponto.png" 1 false)) = text ++ nl).
Proof.
  exact (output_all_or_nothing (pil := RefPIL.lib sample_dir) "ponto.png" 1 false).
Defined.

(** ** The flag and the course of a run *)

Lemma caractere_flag p :
  same_course (caractere (paleta true) p) (caractere (paleta false) p).
Proof.
  unfold caractere. rewrite !indice_paleta.
  destruct (indice ASCII_CHARS_PADRAO p) as [e|i]; [reflexivity|]. unfold and_then.
  destruct (Z_le_dec (-70) i) as [Hlo|Hlo];
    [destruct (Z_lt_dec i 70) as [Hhi|Hhi]|].
  - assert (Hboth : forall inv, exists c, py_index (paleta inv) i = inr c).
    { intros inv. destruct (Z_lt_dec i 0).
      - rewrite py_index_from_end by lia.
        destruct (py_index_in_range inv (i + 70)) as [c [Hc _]]; [lia|eauto].
      - destruct (py_index_in_range inv i) as [c [Hc _]]; [lia|eauto]. }
    destruct (Hboth true) as [c ->]. destruct (Hboth false) as [d ->]. exact I.
  - rewrite !py_index_out_of_range by lia. reflexivity.
  - rewrite !py_index_out_of_range by lia. reflexivity.
Qed.

Lemma mapear_loop_flag ps :
  forall acc1 acc2,
    List.length acc1 = List.length acc2 ->
    match mapear_loop (paleta true) ps acc1, mapear_loop (paleta false) ps acc2 with
    | inl e1, inl e2 => e1 = e2
    | inr o1, inr o2 => List.length o1 = List.length o2
    | _, _ => False
    end.
Proof.
  induction ps as [|p ps IH]; intros acc1 acc2 Hlen; cbn [mapear_loop];
    [exact Hlen|].
  pose proof (caractere_flag p) as Hp. unfold same_course in Hp.
  destruct (caractere (paleta true) p) as [e1|c1],
           (caractere (paleta false) p) as [e2|c2];
    try contradiction; unfold and_then; [exact Hp|].
  apply IH. rewrite !length_app. simpl. lia.
Qed.

Lemma formatar_same_length s1 s2 w :
  String.length s1 = String.length s2 ->
  same_course (formatar s1 w) (formatar s2 w).
Proof.
  intros Hlen. unfold formatar, len. rewrite Hlen.
  destruct (py_range 0 (Z.of_nat (String.length s2)) w); reflexivity.
Qed.

Lemma stages_flag g w :
  same_course (let? s := mapear_pixels_para_ascii g true in formatar s w)
              (let? s := mapear_pixels_para_ascii g false in formatar s w).
Proof.
  unfold mapear_pixels_para_ascii.
  pose proof (mapear_loop_flag (getdata g) [] [] eq_refl) as H.
  destruct (mapear_loop (paleta true) (getdata g) []) as [e1|o1],
           (mapear_loop (paleta false) (getdata g) []) as [e2|o2];
    try contradiction; unfold and_then; [exact H|].
  apply formatar_same_length.
  now rewrite !length_of_list.
Qed.

(** X14: the flag changes the characters and nothing else.  For every
    library, path and width, the run with the flag and the run without it
    end the same way (both return, or both raise the same exception), make
    the same calls to [Image.open], [resize] and [convert], and print the
    same number of texts. *)
Theorem flag_keeps_course {pil : PIL} path largura :
  outcome (gerar_arte_ascii path largura true) =
  outcome (gerar_arte_ascii path largura false) /\
  opened (trace (gerar_arte_ascii path largura true)) =
  opened (trace (gerar_arte_ascii path largura false)) /\
  resized (trace (gerar_arte_ascii path largura true)) =
  resized (trace (gerar_arte_ascii path largura false)) /\
  converted (trace (gerar_arte_ascii path largura true)) =
  converted (trace (gerar_arte_ascii path largura false)) /\
  List.length (printed (trace (gerar_arte_ascii path largura true))) =
  List.length (printed (trace (gerar_arte_ascii path largura false))).
Proof.
  destruct (Image_open path) as [e|im] eqn:Ho.
  - rewrite !(gerar_not_opened _ _ _ _ Ho). repeat split.
  - rewrite !(gerar_opened _ _ _ _ Ho).
    destruct (nova_altura (size im) largura) as [e|h]; [repeat split|].
    destruct (resize im (largura, h)) as [e|r]; [repeat split|].
    destruct (convert r "L") as [e|g]; [repeat split|].
    pose proof (stages_flag g (width r)) as H. unfold same_course in H.
    destruct (let? s := mapear_pixels_para_ascii g true in formatar s (width r))
      as [e1|a1],
      (let? s := mapear_pixels_para_ascii g false in formatar s (width r))
      as [e2|a2]; try contradiction.
    + subst e2. repeat split.
    + repeat split.
Qed.

(** ** Where a run can fail *)

(** X15: with a target width above 0 and a library that meets its contract,
    the program's own stages never fail once the file is open: if the run
    raises, the exception comes from the height computation of line 24-27
    (a zero original width, an overflow), from [resize] or from [convert];
    the mapper and the formatter never raise on what they are given. *)
Theorem failures_come_from_resize_or_convert
        {pil : PIL} {laws : PIL_laws pil} path largura inv im e :
  0 < largura ->
  Image_open path = inr im ->
  outcome (gerar_arte_ascii path largura inv) = inl e ->
  nova_altura (size im) largura = inl e \/
  exists h,
    nova_altura (size im) largura = inr h /\
    (resize im (largura, h) = inl e \/
     exists r, resize im (largura, h) = inr r /\ convert r "L" = inl e).
Proof.
  intros Hw Ho Hfail. rewrite (gerar_opened _ _ _ _ Ho) in Hfail.
  destruct (nova_altura (size im) largura) as [e0|h] eqn:Hh.
  { left. simpl in Hfail. now injection Hfail as <-. }
  right. exists h. split; [reflexivity|].
  destruct (resize im (largura, h)) as [e0|r] eqn:Hr.
  { left. simpl in Hfail. now injection Hfail as <-. }
  right. exists r. split; [reflexivity|].
  destruct (convert r "L") as [e0|g] eqn:Hc.
  { simpl in Hfail. now injection Hfail as <-. }
  exfalso.
  destruct (resize_size _ _ _ Hr) as [Hs [Hw0 [Hh0 Hlen]]].
  destruct (convert_L _ _ Hc) as [_ [Hlg [vs [Hd Hvs]]]].
  rewrite Hs in Hw0, Hh0, Hlen. simpl in Hw0, Hh0, Hlen.
  rewrite (mapear_luminance g inv vs Hd Hvs) in Hfail. unfold and_then in Hfail.
  unfold width in Hfail. rewrite Hs in Hfail. simpl fst in Hfail.
  rewrite (formatar_rows _ largura h) in Hfail; try assumption; [discriminate|].
  unfold len. rewrite length_of_list, length_map.
  rewrite <- Hlen, <- Hlg, Hd. now rewrite length_map.
Qed.

Lemma failures_come_from_resize_or_convert_witness :
  nova_altura (size white_1x1) 1 =
  inl (Raise ValueError "height and width must be > 0") \/
  exists h,
    nova_altura (size white_1x1) 1 = inr h /\
    (resize (PIL := RefPIL.lib sample_dir) white_1x1 (1, h) =
     inl (Raise ValueError "height and width must be > 0") \/
     exists r, resize (PIL := RefPIL.lib sample_dir) white_1x1 (1, h) = inr r /\
               convert (PIL := RefPIL.lib sample_dir) r "L" =
               inl (Raise ValueError "height and width must be > 0")).
Proof.
  apply (failures_come_from_resize_or_convert
           (pil := RefPIL.lib sample_dir) "ponto.png" 1 false white_1x1
           (Raise ValueError "height and width must be > 0")).
  - lia.
  - reflexivity.
  - reflexivity.
Defined.
